(** * CodeCaddy: the book-collection store

    A shallow embedding of the state-management core of the CodeCaddy
    application: the reducer of [BookCollectionContext.tsx] with its derived
    arrays, the mapping adapter of [bookMappers.ts], the search orchestration
    ([searchBooks]) and the localStorage codec ([loadInitialState] and the
    save effect), followed by the properties the specification states about
    them.

    JavaScript strings are sequences of UTF-16 code units; a code unit is a
    number of [N].  Values that come out of [JSON.parse] are untyped, so the
    loader works on [jsval]; the reducer works on the records that the
    TypeScript interface [Book] describes. *)

From Stdlib Require Import List NArith ZArith PeanoNat Bool Lia.
From Stdlib Require Ascii String.
Import ListNotations.
Import String.StringSyntax.
Local Open Scope string_scope.
Local Open Scope list_scope.
Local Open Scope nat_scope.

Set Implicit Arguments.

(* ================================================================= *)
(** ** JavaScript strings *)

Definition jsstring : Type := list N.

(** A source literal, one code unit per character. *)
Definition str (s : String.string) : jsstring :=
  map Ascii.N_of_ascii (String.list_ascii_of_string s).

Fixpoint jsstring_eqb (a b : jsstring) : bool :=
  match a, b with
  | [], [] => true
  | x :: a', y :: b' => N.eqb x y && jsstring_eqb a' b'
  | _, _ => false
  end.

(** [Array.prototype.join] on an array of strings. *)
Fixpoint join (sep : jsstring) (parts : list jsstring) : jsstring :=
  match parts with
  | [] => []
  | [p] => p
  | p :: rest => p ++ sep ++ join sep rest
  end.

(** ECMAScript WhiteSpace and LineTerminator code points, the ones
    [String.prototype.trim] strips; all of them are single code units. *)
Definition is_js_whitespace (c : N) : bool :=
  (N.eqb c 9 || N.eqb c 10 || N.eqb c 11 || N.eqb c 12 || N.eqb c 13
   || N.eqb c 32 || N.eqb c 160 || N.eqb c 5760
   || (N.leb 8192 c && N.leb c 8202)
   || N.eqb c 8232 || N.eqb c 8233 || N.eqb c 8239 || N.eqb c 8287
   || N.eqb c 12288 || N.eqb c 65279)%N.

Fixpoint trimStart (s : jsstring) : jsstring :=
  match s with
  | [] => []
  | c :: rest => if is_js_whitespace c then trimStart rest else s
  end.

Definition trimEnd (s : jsstring) : jsstring := rev (trimStart (rev s)).

Definition trim (s : jsstring) : jsstring := trimEnd (trimStart s).

(** Truthiness of a string: only the empty string is falsy. *)
Definition truthy (s : jsstring) : bool :=
  match s with [] => false | _ :: _ => true end.

(* ================================================================= *)
(** ** The data model ([shared/types.ts]) *)

Inductive BookStatus : Type :=
| want_to_read
| currently_reading
| have_read.

Definition BookStatus_eqb (a b : BookStatus) : bool :=
  match a, b with
  | want_to_read, want_to_read => true
  | currently_reading, currently_reading => true
  | have_read, have_read => true
  | _, _ => false
  end.

Record Book : Type := mkBook {
  id : jsstring;
  title : jsstring;
  author : jsstring;
  publishedDate : jsstring;
  description : jsstring;
  thumbnail : jsstring;
  status : BookStatus
}.

(** [BookCollectionState]; [B] is the type of the array elements: [Book] for
    the states the reducer handles, [jsval] for what the loader builds from
    untyped storage contents. *)
Record BookCollectionState (B : Type) : Type := mkState {
  books : list B;
  searchResults : list B;
  isLoading : bool;
  error : option jsstring;
  currentlyReading : list B;
  wantToRead : list B;
  haveRead : list B
}.

Arguments mkState {B}.
Arguments books {B}.
Arguments searchResults {B}.
Arguments isLoading {B}.
Arguments error {B}.
Arguments currentlyReading {B}.
Arguments wantToRead {B}.
Arguments haveRead {B}.

(* ================================================================= *)
(** ** The reducer ([contexts/BookCollectionContext.tsx]) *)

Record DerivedArrays (B : Type) : Type := mkDerived {
  d_currentlyReading : list B;
  d_wantToRead : list B;
  d_haveRead : list B
}.

Arguments mkDerived {B}.
Arguments d_currentlyReading {B}.
Arguments d_wantToRead {B}.
Arguments d_haveRead {B}.

Definition computeDerivedArrays (bs : list Book) : DerivedArrays Book :=
  {| d_currentlyReading :=
       filter (fun b => BookStatus_eqb (status b) currently_reading) bs;
     d_wantToRead :=
       filter (fun b => BookStatus_eqb (status b) want_to_read) bs;
     d_haveRead :=
       filter (fun b => BookStatus_eqb (status b) have_read) bs |}.

Definition initialState {B : Type} : BookCollectionState B :=
  {| books := [];
     searchResults := [];
     isLoading := false;
     error := None;
     currentlyReading := [];
     wantToRead := [];
     haveRead := [] |}.

Inductive Action : Type :=
| ADD_BOOK (payload : Book)
| REMOVE_BOOK (payload : jsstring)
| UPDATE_BOOK_STATUS (payload_id : jsstring) (payload_status : BookStatus)
| SET_SEARCH_RESULTS (payload : list Book)
| SET_LOADING (payload : bool)
| SET_ERROR (payload : option jsstring)
| CLEAR_SEARCH
| LOAD_FROM_STORAGE (payload : list Book).

(** [{ ...state, books: updatedBooks, ...computeDerivedArrays(updatedBooks) }] *)
Definition with_books (state : BookCollectionState Book)
    (updatedBooks : list Book) : BookCollectionState Book :=
  let d := computeDerivedArrays updatedBooks in
  {| books := updatedBooks;
     searchResults := searchResults state;
     isLoading := isLoading state;
     error := error state;
     currentlyReading := d_currentlyReading d;
     wantToRead := d_wantToRead d;
     haveRead := d_haveRead d |}.

(** [{ ...book, status }] *)
Definition set_status (book : Book) (s : BookStatus) : Book :=
  {| id := id book;
     title := title book;
     author := author book;
     publishedDate := publishedDate book;
     description := description book;
     thumbnail := thumbnail book;
     status := s |}.

Definition bookCollectionReducer (state : BookCollectionState Book)
    (action : Action) : BookCollectionState Book :=
  match action with
  | ADD_BOOK payload =>
      let updatedBooks :=
        filter (fun book => negb (jsstring_eqb (id book) (id payload)))
               (books state) ++ [payload] in
      with_books state updatedBooks
  | REMOVE_BOOK payload =>
      let updatedBooks :=
        filter (fun book => negb (jsstring_eqb (id book) payload))
               (books state) in
      with_books state updatedBooks
  | UPDATE_BOOK_STATUS payload_id payload_status =>
      let updatedBooks :=
        map (fun book =>
               if jsstring_eqb (id book) payload_id
               then set_status book payload_status
               else book)
            (books state) in
      with_books state updatedBooks
  | SET_SEARCH_RESULTS payload =>
      {| books := books state;
         searchResults := payload;
         isLoading := false;
         error := None;
         currentlyReading := currentlyReading state;
         wantToRead := wantToRead state;
         haveRead := haveRead state |}
  | SET_LOADING payload =>
      {| books := books state;
         searchResults := searchResults state;
         isLoading := payload;
         error := error state;
         currentlyReading := currentlyReading state;
         wantToRead := wantToRead state;
         haveRead := haveRead state |}
  | SET_ERROR payload =>
      {| books := books state;
         searchResults := searchResults state;
         isLoading := false;
         error := payload;
         currentlyReading := currentlyReading state;
         wantToRead := wantToRead state;
         haveRead := haveRead state |}
  | CLEAR_SEARCH =>
      {| books := books state;
         searchResults := [];
         isLoading := isLoading state;
         error := None;
         currentlyReading := currentlyReading state;
         wantToRead := wantToRead state;
         haveRead := haveRead state |}
  | LOAD_FROM_STORAGE payload =>
      with_books state payload
  end.

(** The store applies the dispatched actions to its state one after the
    other. *)
Definition dispatch_all (state : BookCollectionState Book)
    (actions : list Action) : BookCollectionState Book :=
  fold_left bookCollectionReducer actions state.

(** [getBooksByStatus] *)
Definition getBooksByStatus (state : BookCollectionState Book)
    (s : BookStatus) : list Book :=
  filter (fun book => BookStatus_eqb (status book) s) (books state).

(** The stored derived array for a status. *)
Definition derived_view (state : BookCollectionState Book)
    (s : BookStatus) : list Book :=
  match s with
  | want_to_read => wantToRead state
  | currently_reading => currentlyReading state
  | have_read => haveRead state
  end.

(** The invariant of the data model: the three stored arrays are the filters
    of [books]. *)
Definition derived_consistent (state : BookCollectionState Book) : Prop :=
  currentlyReading state = d_currentlyReading (computeDerivedArrays (books state))
  /\ wantToRead state = d_wantToRead (computeDerivedArrays (books state))
  /\ haveRead state = d_haveRead (computeDerivedArrays (books state)).

(** The number of records of a collection that carry a given id. *)
Definition count_id (i : jsstring) (bs : list Book) : nat :=
  length (filter (fun book => jsstring_eqb (id book) i) bs).

(* ================================================================= *)
(** ** The mapping adapter ([utils/bookMappers.ts]) *)

(** [GoogleBookItem]; the fields of [volumeInfo] that the adapter never reads
    (categories, publisher, industryIdentifiers) are left out. *)
Record ImageLinks : Type := mkImageLinks {
  il_thumbnail : option jsstring;
  il_smallThumbnail : option jsstring
}.

Record VolumeInfo : Type := mkVolumeInfo {
  vi_title : jsstring;
  vi_authors : option (list jsstring);
  vi_publishedDate : option jsstring;
  vi_description : option jsstring;
  vi_imageLinks : option ImageLinks
}.

Record GoogleBookItem : Type := mkItem {
  item_id : jsstring;
  volumeInfo : VolumeInfo
}.

(** [x || fallback] for an optional string [x]: [undefined] and the empty
    string are falsy. *)
Definition or_else (x : option jsstring) (fallback : jsstring) : jsstring :=
  match x with
  | Some s => if truthy s then s else fallback
  | None => fallback
  end.

Definition placeholder_thumbnail : jsstring :=
  str "https://via.placeholder.com/128x192.png?text=No+Cover".

(** The second argument is [None] when the caller omits it, and the
    parameter default applies. *)
Definition mapGoogleBookToBook (item : GoogleBookItem)
    (status_arg : option BookStatus) : Book :=
  let status_ :=
    match status_arg with Some s => s | None => want_to_read end in
  {| id := item_id item;
     title := vi_title (volumeInfo item);
     author :=
       or_else (option_map (join (str ", ")) (vi_authors (volumeInfo item)))
               (str "Unknown Author");
     publishedDate :=
       or_else (vi_publishedDate (volumeInfo item)) (str "Unknown Date");
     description :=
       or_else (vi_description (volumeInfo item))
               (str "No description available");
     thumbnail :=
       or_else (match vi_imageLinks (volumeInfo item) with
                | Some links => il_thumbnail links
                | None => None
                end)
               placeholder_thumbnail;
     status := status_ |}.

(* ================================================================= *)
(** ** Untyped values and exceptions *)

(** The values [JSON.parse] can build.  A number is kept as its lexeme (its
    floating-point value is never inspected by the store); an object is its
    properties in insertion order. *)
#[warnings="-register-all"]
Inductive jsval : Type :=
| JNull
| JBool (b : bool)
| JNum (lexeme : jsstring)
| JStr (s : jsstring)
| JArr (items : list jsval)
| JObj (props : list (jsstring * jsval)).

(** What a [throw] carries.  [Error] objects (SyntaxError, TypeError, ...) and
    DOMExceptions have a name and a message; anything else is a plain value. *)
Inductive thrown : Type :=
| ErrorObject (name message : jsstring)
| DOMException (name message : jsstring)
| ThrownValue (v : jsval).

Inductive completion (A : Type) : Type :=
| Normal (a : A)
| Throw (e : thrown).

Arguments Normal {A}.
Arguments Throw {A}.

Definition SyntaxError : thrown :=
  ErrorObject (str "SyntaxError") (str "Unexpected token in JSON").

Definition TypeError : thrown :=
  ErrorObject (str "TypeError") (str "Cannot read properties of null").

Definition QuotaExceededError : thrown :=
  DOMException (str "QuotaExceededError") (str "The quota has been exceeded.").

(** [e instanceof Error]: DOMException.prototype inherits from
    Error.prototype. *)
Definition instanceof_Error (e : thrown) : bool :=
  match e with
  | ErrorObject _ _ => true
  | DOMException _ _ => true
  | ThrownValue _ => false
  end.

Definition instanceof_DOMException (e : thrown) : bool :=
  match e with
  | DOMException _ _ => true
  | _ => false
  end.

Definition error_name (e : thrown) : jsstring :=
  match e with
  | ErrorObject n _ => n
  | DOMException n _ => n
  | ThrownValue _ => []
  end.

Definition error_message (e : thrown) : jsstring :=
  match e with
  | ErrorObject _ m => m
  | DOMException _ m => m
  | ThrownValue _ => []
  end.

Fixpoint lookup_prop (k : jsstring) (props : list (jsstring * jsval))
    : option jsval :=
  match props with
  | [] => None
  | (k', v) :: rest => if jsstring_eqb k' k then Some v else lookup_prop k rest
  end.

(** [o[k] = v] on an object under construction: an existing property keeps
    its place and takes the new value, a new one goes last. *)
Fixpoint set_prop (k : jsstring) (v : jsval) (props : list (jsstring * jsval))
    : list (jsstring * jsval) :=
  match props with
  | [] => [(k, v)]
  | (k', v') :: rest =>
      if jsstring_eqb k' k then (k', v) :: rest
      else (k', v') :: set_prop k v rest
  end.

(** [v.status]: reading a property of [null] throws a TypeError; a value
    without the property yields [undefined] ([None]).  Strings, numbers,
    booleans and arrays have no property of that name. *)
Definition get_status (v : jsval) : completion (option jsval) :=
  match v with
  | JNull => Throw TypeError
  | JObj props => Normal (lookup_prop (str "status") props)
  | _ => Normal None
  end.

(** [x === 'literal'] *)
Definition strict_equals_string (x : option jsval) (lit : jsstring) : bool :=
  match x with
  | Some (JStr s) => jsstring_eqb s lit
  | _ => false
  end.

Definition status_string (s : BookStatus) : jsstring :=
  match s with
  | want_to_read => str "want-to-read"
  | currently_reading => str "currently-reading"
  | have_read => str "have-read"
  end.

(** The object a [Book] is at run time, its properties in the order of the
    interface (the order in which [mapGoogleBookToBook] creates them). *)
Definition js_of_book (b : Book) : jsval :=
  JObj [ (str "id", JStr (id b));
         (str "title", JStr (title b));
         (str "author", JStr (author b));
         (str "publishedDate", JStr (publishedDate b));
         (str "description", JStr (description b));
         (str "thumbnail", JStr (thumbnail b));
         (str "status", JStr (status_string (status b))) ].

Definition status_of_string (s : jsstring) : option BookStatus :=
  if jsstring_eqb s (str "want-to-read") then Some want_to_read
  else if jsstring_eqb s (str "currently-reading") then Some currently_reading
  else if jsstring_eqb s (str "have-read") then Some have_read
  else None.

(** The view of an untyped value as a [Book], the reading that the unchecked
    annotation [const books: Book[] = JSON.parse(savedBooks)] takes for
    granted: defined on objects with exactly the seven properties. *)
Definition book_of_js (v : jsval) : option Book :=
  match v with
  | JObj [ (k1, JStr i); (k2, JStr t); (k3, JStr a); (k4, JStr p);
           (k5, JStr d); (k6, JStr th); (k7, JStr s) ] =>
      if jsstring_eqb k1 (str "id") && jsstring_eqb k2 (str "title")
         && jsstring_eqb k3 (str "author")
         && jsstring_eqb k4 (str "publishedDate")
         && jsstring_eqb k5 (str "description")
         && jsstring_eqb k6 (str "thumbnail")
         && jsstring_eqb k7 (str "status")
      then option_map (mkBook i t a p d th) (status_of_string s)
      else None
  | _ => None
  end.

(** [books.filter(b => b.status === lit)] on untyped elements. *)
Fixpoint filter_by_status (lit : jsstring) (bs : list jsval)
    : completion (list jsval) :=
  match bs with
  | [] => Normal []
  | b :: rest =>
      match get_status b with
      | Throw e => Throw e
      | Normal st =>
          match filter_by_status lit rest with
          | Throw e => Throw e
          | Normal kept =>
              Normal (if strict_equals_string st lit then b :: kept else kept)
          end
      end
  end.

(** [computeDerivedArrays] as it runs on the array that [JSON.parse]
    returned. *)
Definition computeDerivedArrays_js (bs : list jsval)
    : completion (DerivedArrays jsval) :=
  match filter_by_status (str "currently-reading") bs with
  | Throw e => Throw e
  | Normal cr =>
      match filter_by_status (str "want-to-read") bs with
      | Throw e => Throw e
      | Normal wtr =>
          match filter_by_status (str "have-read") bs with
          | Throw e => Throw e
          | Normal hr => Normal (mkDerived cr wtr hr)
          end
      end
  end.

(* ================================================================= *)
(** ** The host's JSON codec

    [JSON.stringify] and [JSON.parse] are built-ins of the host, not code of
    the application; they are modelled after ECMA-262 (QuoteJSONString,
    SerializeJSONArray, SerializeJSONObject without indentation, and the
    JSON grammar), as far as the values of [jsval] go.  The reordering of
    array-index property names inside an object is not modelled. *)

Section JSON.

Local Open Scope N_scope.

Definition hex_digit (n : N) : N :=
  if n <? 10 then 48 + n else 87 + n.

(** Four lowercase hexadecimal digits. *)
Definition hex4 (c : N) : jsstring :=
  [ hex_digit (c / 4096 mod 16); hex_digit (c / 256 mod 16);
    hex_digit (c / 16 mod 16); hex_digit (c mod 16) ].

Definition hex_value (d : N) : option N :=
  if (48 <=? d) && (d <=? 57) then Some (d - 48)
  else if (97 <=? d) && (d <=? 102) then Some (d - 87)
  else if (65 <=? d) && (d <=? 70) then Some (d - 55)
  else None.

Definition is_high_surrogate (c : N) : bool := (55296 <=? c) && (c <=? 56319).
Definition is_low_surrogate (c : N) : bool := (56320 <=? c) && (c <=? 57343).

(** [\uXXXX] *)
Definition unicode_escape (c : N) : jsstring := [92; 117] ++ hex4 c.

(** A code unit that is not a surrogate. *)
Definition quote_code_unit (c : N) : jsstring :=
  if c =? 8 then [92; 98]
  else if c =? 9 then [92; 116]
  else if c =? 10 then [92; 110]
  else if c =? 12 then [92; 102]
  else if c =? 13 then [92; 114]
  else if c =? 34 then [92; 34]
  else if c =? 92 then [92; 92]
  else if c <? 32 then unicode_escape c
  else [c].

(** A surrogate pair goes out as it is, a lone surrogate escaped. *)
Fixpoint quote_chars (s : jsstring) : jsstring :=
  match s with
  | [] => []
  | c :: rest =>
      if is_high_surrogate c then
        match rest with
        | d :: rest' =>
            if is_low_surrogate d then c :: d :: quote_chars rest'
            else unicode_escape c ++ quote_chars rest
        | [] => unicode_escape c
        end
      else if is_low_surrogate c then unicode_escape c ++ quote_chars rest
      else quote_code_unit c ++ quote_chars rest
  end.

Definition QuoteJSONString (s : jsstring) : jsstring :=
  [34] ++ quote_chars s ++ [34].

Fixpoint JSON_stringify (v : jsval) : jsstring :=
  match v with
  | JNull => str "null"
  | JBool true => str "true"
  | JBool false => str "false"
  | JNum lexeme => lexeme
  | JStr s => QuoteJSONString s
  | JArr items => [91] ++ join [44] (map JSON_stringify items) ++ [93]
  | JObj props =>
      [123]
      ++ join [44]
           (map (fun kv =>
                   QuoteJSONString (fst kv) ++ [58] ++ JSON_stringify (snd kv))
                props)
      ++ [125]
  end.

Definition is_json_ws (c : N) : bool :=
  (c =? 32) || (c =? 9) || (c =? 10) || (c =? 13).

Fixpoint skip_ws (s : jsstring) : jsstring :=
  match s with
  | [] => []
  | c :: rest => if is_json_ws c then skip_ws rest else s
  end.

(** The character after a backslash, [u] apart. *)
Definition unescape (e : N) : option N :=
  if e =? 34 then Some 34
  else if e =? 92 then Some 92
  else if e =? 47 then Some 47
  else if e =? 98 then Some 8
  else if e =? 102 then Some 12
  else if e =? 110 then Some 10
  else if e =? 114 then Some 13
  else if e =? 116 then Some 9
  else None.

Definition hex4_value (h1 h2 h3 h4 : N) : option N :=
  match hex_value h1, hex_value h2, hex_value h3, hex_value h4 with
  | Some a, Some b, Some c, Some d => Some (((a * 16 + b) * 16 + c) * 16 + d)
  | _, _, _, _ => None
  end.

(** The characters of a string literal after its opening quote, up to and
    including the closing quote. *)
Fixpoint parse_string_chars (s : jsstring) : option (jsstring * jsstring) :=
  match s with
  | [] => None
  | c :: r =>
      if c =? 34 then Some ([], r)
      else if c =? 92 then
        match r with
        | [] => None
        | e :: r1 =>
            if e =? 117 then
              match r1 with
              | h1 :: h2 :: h3 :: h4 :: r2 =>
                  match hex4_value h1 h2 h3 h4 with
                  | Some u =>
                      match parse_string_chars r2 with
                      | Some (cs, r3) => Some (u :: cs, r3)
                      | None => None
                      end
                  | None => None
                  end
              | _ => None
              end
            else
              match unescape e with
              | Some u =>
                  match parse_string_chars r1 with
                  | Some (cs, r3) => Some (u :: cs, r3)
                  | None => None
                  end
              | None => None
              end
        end
      else if c <? 32 then None
      else
        match parse_string_chars r with
        | Some (cs, r3) => Some (c :: cs, r3)
        | None => None
        end
  end.

Definition is_digit (c : N) : bool := (48 <=? c) && (c <=? 57).

Fixpoint span_digits (s : jsstring) : jsstring * jsstring :=
  match s with
  | [] => ([], [])
  | c :: rest =>
      if is_digit c then
        let (ds, r) := span_digits rest in (c :: ds, r)
      else ([], s)
  end.

(** A number token: an optional minus sign; a zero, or a non-zero digit
    followed by digits; an optional fraction (a dot and at least one digit);
    an optional exponent (e or E, an optional sign, at least one digit).
    Each part gives its lexeme and the rest of the text. *)
Definition number_sign (s : jsstring) : jsstring * jsstring :=
  match s with
  | c :: r => if c =? 45 then ([c], r) else ([], s)
  | [] => ([], s)
  end.

Definition number_int (s : jsstring) : option (jsstring * jsstring) :=
  match s with
  | [] => None
  | c :: r =>
      if c =? 48 then Some ([c], r)
      else if is_digit c then
        let (ds, r') := span_digits r in Some (c :: ds, r')
      else None
  end.

Definition number_frac (s : jsstring) : option (jsstring * jsstring) :=
  match s with
  | c :: r =>
      if c =? 46 then
        match span_digits r with
        | ([], _) => None
        | (ds, r') => Some (c :: ds, r')
        end
      else Some ([], s)
  | [] => Some ([], s)
  end.

Definition exponent_sign (s : jsstring) : jsstring * jsstring :=
  match s with
  | g :: r => if (g =? 43) || (g =? 45) then ([g], r) else ([], s)
  | [] => ([], s)
  end.

Definition number_exp (s : jsstring) : option (jsstring * jsstring) :=
  match s with
  | c :: r =>
      if (c =? 101) || (c =? 69) then
        let (sg, r1) := exponent_sign r in
        match span_digits r1 with
        | ([], _) => None
        | (ds, r2) => Some (c :: sg ++ ds, r2)
        end
      else Some ([], s)
  | [] => Some ([], s)
  end.

Definition parse_number (s : jsstring) : option (jsstring * jsstring) :=
  let (sign, s1) := number_sign s in
  match number_int s1 with
  | None => None
  | Some (int, s2) =>
      match number_frac s2 with
      | None => None
      | Some (frac, s3) =>
          match number_exp s3 with
          | None => None
          | Some (ex, s4) => Some (sign ++ int ++ frac ++ ex, s4)
          end
      end
  end.

Fixpoint strip_prefix (p s : jsstring) : option jsstring :=
  match p, s with
  | [], _ => Some s
  | x :: p', y :: s' => if x =? y then strip_prefix p' s' else None
  | _ :: _, [] => None
  end.

Definition parse_literal (lit : jsstring) (v : jsval) (s : jsstring)
    : option (jsval * jsstring) :=
  match strip_prefix lit s with
  | Some r => Some (v, r)
  | None => None
  end.

(** The properties of a parsed object: a repeated name keeps its first place
    and its last value. *)
Definition object_of_members (members : list (jsstring * jsval))
    : list (jsstring * jsval) :=
  fold_left (fun props kv => set_prop (fst kv) (snd kv) props) members [].

(** Recursive descent; [fuel] bounds the depth of the calls. *)
Fixpoint parse_value (fuel : nat) (s : jsstring) {struct fuel}
    : option (jsval * jsstring) :=
  match fuel with
  | O => None
  | S fuel' =>
      match skip_ws s with
      | [] => None
      | c :: r =>
          if c =? 34 then
            match parse_string_chars r with
            | Some (x, r') => Some (JStr x, r')
            | None => None
            end
          else if c =? 91 then
            match skip_ws r with
            | [] => None
            | d :: r' =>
                if d =? 93 then Some (JArr [], r')
                else
                  match parse_elements fuel' r with
                  | Some (xs, r'') => Some (JArr xs, r'')
                  | None => None
                  end
            end
          else if c =? 123 then
            match skip_ws r with
            | [] => None
            | d :: r' =>
                if d =? 125 then Some (JObj [], r')
                else
                  match parse_members fuel' r with
                  | Some (ms, r'') => Some (JObj (object_of_members ms), r'')
                  | None => None
                  end
            end
          else if c =? 116 then parse_literal (str "true") (JBool true) (c :: r)
          else if c =? 102 then
            parse_literal (str "false") (JBool false) (c :: r)
          else if c =? 110 then parse_literal (str "null") JNull (c :: r)
          else
            match parse_number (c :: r) with
            | Some (lexeme, r') => Some (JNum lexeme, r')
            | None => None
            end
      end
  end

with parse_elements (fuel : nat) (s : jsstring) {struct fuel}
    : option (list jsval * jsstring) :=
  match fuel with
  | O => None
  | S fuel' =>
      match parse_value fuel' s with
      | None => None
      | Some (v, r) =>
          match skip_ws r with
          | [] => None
          | c :: r' =>
              if c =? 44 then
                match parse_elements fuel' r' with
                | Some (vs, r'') => Some (v :: vs, r'')
                | None => None
                end
              else if c =? 93 then Some ([v], r')
              else None
          end
      end
  end

with parse_members (fuel : nat) (s : jsstring) {struct fuel}
    : option (list (jsstring * jsval) * jsstring) :=
  match fuel with
  | O => None
  | S fuel' =>
      match skip_ws s with
      | [] => None
      | c :: r =>
          if c =? 34 then
            match parse_string_chars r with
            | None => None
            | Some (k, r1) =>
                match skip_ws r1 with
                | [] => None
                | c1 :: r2 =>
                    if c1 =? 58 then
                      match parse_value fuel' r2 with
                      | None => None
                      | Some (v, r3) =>
                          match skip_ws r3 with
                          | [] => None
                          | c3 :: r4 =>
                              if c3 =? 44 then
                                match parse_members fuel' r4 with
                                | Some (ms, r5) => Some ((k, v) :: ms, r5)
                                | None => None
                                end
                              else if c3 =? 125 then Some ([(k, v)], r4)
                              else None
                          end
                      end
                    else None
                end
            end
          else None
      end
  end.

(** Every call of the descent goes with a token of the text, and at most two
    calls with one token, so twice the length of the text is fuel enough. *)
Definition parse_fuel (s : jsstring) : nat := (2 * length s + 2)%nat.

(** [JSON.parse]: one value, then nothing but white space; anything else is
    a SyntaxError. *)
Definition JSON_parse (text : jsstring) : completion jsval :=
  match parse_value (parse_fuel text) text with
  | Some (v, r) =>
      match skip_ws r with
      | [] => Normal v
      | _ :: _ => Throw SyntaxError
      end
  | None => Throw SyntaxError
  end.

End JSON.

(* ================================================================= *)
(** ** Effects: storage, console, dispatch, the search collaborator *)

(** [localStorage]: string keys to string values, and the capacity the host
    grants, counted in code units ([None]: no limit). *)
Record Storage : Type := mkStorage {
  entries : list (jsstring * jsstring);
  quota : option nat
}.

Fixpoint storage_get (k : jsstring) (es : list (jsstring * jsstring))
    : option jsstring :=
  match es with
  | [] => None
  | (k', v) :: rest => if jsstring_eqb k' k then Some v else storage_get k rest
  end.

Definition storage_put (k v : jsstring) (es : list (jsstring * jsstring))
    : list (jsstring * jsstring) :=
  (k, v) :: filter (fun e => negb (jsstring_eqb (fst e) k)) es.

Definition storage_size (es : list (jsstring * jsstring)) : nat :=
  list_sum (map (fun e => length (fst e) + length (snd e)) es).

(** Whether the storage has room for [v] under the key [k]. *)
Definition storage_fits (st : Storage) (k v : jsstring) : bool :=
  match quota st with
  | Some limit => storage_size (storage_put k v (entries st)) <=? limit
  | None => true
  end.

(** [SearchParams], the fields the store sets or the collaborators read. *)
Record SearchParams : Type := mkParams {
  q : jsstring;
  startIndex : option N;
  maxResults : option N
}.

(** [GoogleBooksResponse]; [items] is missing from the answers of the real
    service that found nothing, which is what [!response.items] tests. *)
Record GoogleBooksResponse : Type := mkResponse {
  kind : jsstring;
  totalItems : N;
  items : option (list GoogleBookItem)
}.

(** The object [getBooksApi()] resolves to, as far as the store uses it. *)
Record BooksApi : Type := mkApi {
  api_searchBooks : SearchParams -> completion GoogleBooksResponse
}.

(** One call of [console.error(label, value)]. *)
Definition diagnostic : Type := (jsstring * thrown)%type.

(** One use of the search collaborator: obtaining it, or a search. *)
Inductive request : Type :=
| GetBooksApi
| SearchBooks (params : SearchParams).

Record World : Type := mkWorld {
  localStorage : Storage;
  console : list diagnostic;
  dispatched : list Action;
  requests : list request
}.

(** A computation with effects on the world that returns or throws. *)
Definition js (A : Type) : Type := World -> completion A * World.

Definition ret {A : Type} (a : A) : js A := fun w => (Normal a, w).

Definition bind {A B : Type} (m : js A) (k : A -> js B) : js B :=
  fun w =>
    match m w with
    | (Normal a, w') => k a w'
    | (Throw e, w') => (Throw e, w')
    end.

Definition lift {A : Type} (c : completion A) : js A := fun w => (c, w).

Definition try_catch {A : Type} (body : js A) (handler : thrown -> js A)
    : js A :=
  fun w =>
    match body w with
    | (Normal a, w') => (Normal a, w')
    | (Throw e, w') => handler e w'
    end.

Notation "x <- m ;; k" := (bind m (fun x => k))
  (at level 61, m at next level, right associativity).
Notation "m ;; k" := (bind m (fun _ => k))
  (at level 61, right associativity).

Definition console_error (label : jsstring) (e : thrown) : js unit :=
  fun w =>
    (Normal tt,
     {| localStorage := localStorage w;
        console := console w ++ [(label, e)];
        dispatched := dispatched w;
        requests := requests w |}).

Definition dispatch (a : Action) : js unit :=
  fun w =>
    (Normal tt,
     {| localStorage := localStorage w;
        console := console w;
        dispatched := dispatched w ++ [a];
        requests := requests w |}).

Definition localStorage_getItem (k : jsstring) : js (option jsstring) :=
  fun w => (Normal (storage_get k (entries (localStorage w))), w).

(** [setItem] throws a QuotaExceededError, and stores nothing, when the new
    contents would not fit. *)
Definition localStorage_setItem (k v : jsstring) : js unit :=
  fun w =>
    if storage_fits (localStorage w) k v then
      (Normal tt,
       {| localStorage :=
            {| entries := storage_put k v (entries (localStorage w));
               quota := quota (localStorage w) |};
          console := console w;
          dispatched := dispatched w;
          requests := requests w |})
    else (Throw QuotaExceededError, w).

(** [await getBooksApi()]: the request is recorded, the promise settles as
    [outcome] says. *)
Definition call_getBooksApi (outcome : completion BooksApi) : js BooksApi :=
  fun w =>
    (outcome,
     {| localStorage := localStorage w;
        console := console w;
        dispatched := dispatched w;
        requests := requests w ++ [GetBooksApi] |}).

(** [await booksApi.searchBooks(params)]: the request is recorded, the
    collaborator answers or rejects. *)
Definition call_searchBooks (api : BooksApi) (params : SearchParams)
    : js GoogleBooksResponse :=
  fun w =>
    (api_searchBooks api params,
     {| localStorage := localStorage w;
        console := console w;
        dispatched := dispatched w;
        requests := requests w ++ [SearchBooks params] |}).

(* ================================================================= *)
(** ** The provider: loading, saving, searching *)

Definition STORAGE_KEY : jsstring := str "codecaddy_book_collection".

(** The [try] block of [loadInitialState]: [Some] is the state its [return]
    hands back, [None] is falling out of the block. *)
Definition loadInitialState_try : js (option (BookCollectionState jsval)) :=
  savedBooks <- localStorage_getItem STORAGE_KEY ;;
  match savedBooks with
  | Some text =>
      if truthy text then
        parsed <- lift (JSON_parse text) ;;
        match parsed with
        | JArr bs =>
            d <- lift (computeDerivedArrays_js bs) ;;
            ret (Some {| books := bs;
                         searchResults := [];
                         isLoading := false;
                         error := None;
                         currentlyReading := d_currentlyReading d;
                         wantToRead := d_wantToRead d;
                         haveRead := d_haveRead d |})
        | _ => ret None
        end
      else ret None
  | None => ret None
  end.

Definition loadInitialState : js (BookCollectionState jsval) :=
  r <- try_catch loadInitialState_try
         (fun e =>
            console_error (str "Failed to load books from localStorage:") e ;;
            ret None) ;;
  match r with
  | Some state => ret state
  | None => ret initialState
  end.

(** The effect that runs when [state.books] has changed. *)
Definition saveBooks (state : BookCollectionState Book) : js unit :=
  try_catch
    (localStorage_setItem STORAGE_KEY
       (JSON_stringify (JArr (map js_of_book (books state)))))
    (fun e =>
       console_error (str "Failed to save books to localStorage:") e ;;
       if instanceof_DOMException e
          && jsstring_eqb (error_name e) (str "QuotaExceededError")
       then dispatch (SET_ERROR
                        (Some (str "Storage quota exceeded. Please remove some books.")))
       else ret tt).

Definition no_books_found : jsstring :=
  str "No books found matching your search.".

Definition response_is_empty (response : GoogleBooksResponse) : bool :=
  match items response with
  | None => true
  | Some [] => true
  | Some (_ :: _) => false
  end.

(** [searchBooks]; [getBooksApi] is how the promise of the collaborator
    settles. *)
Definition searchBooks (getBooksApi : completion BooksApi) (query : jsstring)
    : js unit :=
  if negb (truthy (trim query)) then
    dispatch CLEAR_SEARCH
  else
    try_catch
      (dispatch (SET_LOADING true) ;;
       booksApi <- call_getBooksApi getBooksApi ;;
       response <- call_searchBooks booksApi
                     {| q := query; startIndex := None; maxResults := Some 10%N |} ;;
       if response_is_empty response then
         dispatch (SET_SEARCH_RESULTS []) ;;
         dispatch (SET_ERROR (Some no_books_found))
       else
         let mappedBooks :=
           map (fun item => mapGoogleBookToBook item None)
               (match items response with Some l => l | None => [] end) in
         dispatch (SET_SEARCH_RESULTS mappedBooks))
      (fun e =>
         console_error (str "Search error:") e ;;
         dispatch (SET_ERROR
                     (Some (if instanceof_Error e then error_message e
                            else str "An unknown error occurred while searching"))) ;;
         dispatch (SET_SEARCH_RESULTS [])).

(** A world in which nothing has happened yet. *)
Definition quiet (st : Storage) : World :=
  {| localStorage := st; console := []; dispatched := []; requests := [] |}.

(** The state of the store once the actions that a computation dispatched
    have gone through the reducer. *)
Definition state_after {A : Type} (m : js A) (state : BookCollectionState Book)
    (st : Storage) : BookCollectionState Book :=
  dispatch_all state (dispatched (snd (m (quiet st)))).

(* ================================================================= *)
(** ** The rest of the provider *)

(** The action creators that the context hands to the pages. *)
Definition addBook (book : Book) : js unit := dispatch (ADD_BOOK book).

Definition removeBook (bookId : jsstring) : js unit :=
  dispatch (REMOVE_BOOK bookId).

Definition updateBookStatus (bookId : jsstring) (s : BookStatus) : js unit :=
  dispatch (UPDATE_BOOK_STATUS bookId s).

Definition clearSearch : js unit := dispatch CLEAR_SEARCH.

(** The transitions that write the [books] field.  Each of them builds a new
    array (by [filter], [map], a spread, or from the payload); the other
    four copy the reference of the old one. *)
Definition assigns_books (a : Action) : bool :=
  match a with
  | ADD_BOOK _ | REMOVE_BOOK _ | UPDATE_BOOK_STATUS _ _
  | LOAD_FROM_STORAGE _ => true
  | SET_SEARCH_RESULTS _ | SET_LOADING _ | SET_ERROR _ | CLEAR_SEARCH => false
  end.

(** The body of the save effect on the array that [state.books] is at run
    time; [saveBooks] is this effect on the image of typed books. *)
Definition persist (bs : list jsval) : js unit :=
  try_catch
    (localStorage_setItem STORAGE_KEY (JSON_stringify (JArr bs)))
    (fun e =>
       console_error (str "Failed to save books to localStorage:") e ;;
       if instanceof_DOMException e
          && jsstring_eqb (error_name e) (str "QuotaExceededError")
       then dispatch (SET_ERROR
                        (Some (str "Storage quota exceeded. Please remove some books.")))
       else ret tt).

(** Mounting the provider: [useReducer] calls [loadInitialState], and after
    the first render the effect on [state.books] runs once. *)
Definition mount : js (BookCollectionState jsval) :=
  state <- loadInitialState ;;
  persist (books state) ;;
  ret state.

(** One render of the mounted provider.  The actions dispatched since the
    last render go through the reducer in their order; the effect on
    [state.books] then runs if that array was replaced, which is the case
    exactly when one of the actions assigns it; what the effect dispatches
    (SET_ERROR, when the storage is full) goes through the reducer next, and
    assigns no [books]. *)
Definition render (batch : list Action) (state : BookCollectionState Book)
    (st : Storage) : BookCollectionState Book * World :=
  let state' := dispatch_all state batch in
  if existsb assigns_books batch then
    let w := snd (saveBooks state' (quiet st)) in
    (dispatch_all state' (dispatched w), w)
  else (state', quiet st).

(** A run of the provider: render after render, the console and the requests
    left aside. *)
Fixpoint renders (batches : list (list Action))
    (state : BookCollectionState Book) (st : Storage)
    : BookCollectionState Book * Storage :=
  match batches with
  | [] => (state, st)
  | batch :: rest =>
      let (state', w) := render batch state st in
      renders rest state' (localStorage w)
  end.

(* ================================================================= *)
(** ** The pages *)

Module SearchPage.

(** [handleSearch], the form's default action apart. *)
Definition handleSearch (getBooksApi : completion BooksApi) (query : jsstring)
    : js unit :=
  if truthy (trim query) then searchBooks getBooksApi query else ret tt.

Definition isInCollection (books : list Book) (bookId : jsstring) : bool :=
  existsb (fun book => jsstring_eqb (id book) bookId) books.

End SearchPage.

Module CollectionPage.

(** The filter tab that is selected: ['all'] or a status. *)
Inductive Filter : Type :=
| all
| only (s : BookStatus).

Definition getFilteredBooks (state : BookCollectionState Book)
    (selected : Filter) : list Book :=
  match selected with
  | all => books state
  | only s => filter (fun book => BookStatus_eqb (status book) s) (books state)
  end.

(** The number that the tab of a filter shows. *)
Definition tab_count (state : BookCollectionState Book) (selected : Filter)
    : nat :=
  match selected with
  | all => length (books state)
  | only currently_reading => length (currentlyReading state)
  | only want_to_read => length (wantToRead state)
  | only have_read => length (haveRead state)
  end.

End CollectionPage.

Module BookCard.

(** The three "Add to Collection" buttons: [addBook({ ...book, status })]. *)
Definition add_as (book : Book) (s : BookStatus) : js unit :=
  addBook (set_status book s).

Definition handleStatusChange (book : Book) (value : BookStatus) : js unit :=
  updateBookStatus (id book) value.

Definition handleCollectionToggle (book : Book) (isInCollection : bool)
    : js unit :=
  if isInCollection then removeBook (id book) else ret tt.

End BookCard.

Module BookDetailsPage.

(** The collaborator as this page uses it. *)
Record DetailsApi : Type := mkDetailsApi {
  api_getBookById : jsstring -> completion GoogleBookItem
}.

(** The [useState] cells of the page. *)
Record Local : Type := mkLocal {
  book : option Book;
  isLoading : bool;
  error : option jsstring;
  selectedStatus : BookStatus
}.

Definition setBook (b : option Book) (l : Local) : Local :=
  {| book := b; isLoading := isLoading l; error := error l;
     selectedStatus := selectedStatus l |}.

Definition setIsLoading (v : bool) (l : Local) : Local :=
  {| book := book l; isLoading := v; error := error l;
     selectedStatus := selectedStatus l |}.

Definition setError (e : option jsstring) (l : Local) : Local :=
  {| book := book l; isLoading := isLoading l; error := e;
     selectedStatus := selectedStatus l |}.

Definition initialLocal : Local :=
  {| book := None; isLoading := false; error := None;
     selectedStatus := want_to_read |}.

(** [books.find(b => b.id === id)]; the route parameter may be missing. *)
Definition collectionBook (books : list Book) (route_id : option jsstring)
    : option Book :=
  match route_id with
  | Some i => find (fun b => jsstring_eqb (id b) i) books
  | None => None
  end.

Definition isInCollection (books : list Book) (route_id : option jsstring)
    : bool :=
  match collectionBook books route_id with
  | Some _ => true
  | None => false
  end.

Inductive request : Type :=
| GetBooksApi
| GetBookById (bookId : jsstring).

(** [fetchBookDetails]: the cells after it has run, and the requests it
    made. *)
Definition fetchBookDetails (route_id : option jsstring)
    (found : option Book) (getBooksApi : completion DetailsApi) (l : Local)
    : Local * list request :=
  match route_id with
  | None => (l, [])
  | Some i =>
      if negb (truthy i) then (l, [])
      else
        match found with
        | Some b =>
            (setError None (setIsLoading false (setBook (Some b) l)), [])
        | None =>
            let l1 := setError None (setIsLoading true l) in
            let caught (e : thrown) (l' : Local) : Local :=
              setBook None
                (setError
                   (Some (if instanceof_Error e then error_message e
                          else str "Failed to load book details")) l') in
            match getBooksApi with
            | Throw e => (setIsLoading false (caught e l1), [GetBooksApi])
            | Normal booksApi =>
                match api_getBookById booksApi i with
                | Throw e =>
                    (setIsLoading false (caught e l1),
                     [GetBooksApi; GetBookById i])
                | Normal bookData =>
                    (setIsLoading false
                       (setBook (Some (mapGoogleBookToBook bookData None)) l1),
                     [GetBooksApi; GetBookById i])
                end
            end
        end
  end.

Definition handleStatusChange (books : list Book)
    (route_id : option jsstring) (l : Local) (s : BookStatus) : js unit :=
  match book l with
  | Some b =>
      if isInCollection books route_id then updateBookStatus (id b) s
      else ret tt
  | None => ret tt
  end.

Definition handleCollectionToggle (books : list Book)
    (route_id : option jsstring) (l : Local) : js unit :=
  match book l with
  | None => ret tt
  | Some b =>
      if isInCollection books route_id then removeBook (id b)
      else addBook (set_status b (selectedStatus l))
  end.

End BookDetailsPage.

(* ================================================================= *)
(** ** The mock collaborator ([services/mockBooksApi.ts]) *)

Definition mock1 : GoogleBookItem :=
  mkItem (str "mock1")
    (mkVolumeInfo (str "React - The Complete Guide")
       (Some [str "Maximilian Schwarzm" ++ [252%N] ++ str "ller"])
       (Some (str "2021"))
       (Some (str "Learn React from the ground up with this comprehensive guide."))
       (Some (mkImageLinks
                (Some (str "https://via.placeholder.com/128x192.png?text=React"))
                None))).

Definition mock2 : GoogleBookItem :=
  mkItem (str "mock2")
    (mkVolumeInfo (str "JavaScript: The Good Parts")
       (Some [str "Douglas Crockford"])
       (Some (str "2008"))
       (Some (str "A deep dive into the best features of JavaScript and how to use them effectively."))
       (Some (mkImageLinks
                (Some (str "https://via.placeholder.com/128x192.png?text=JavaScript"))
                None))).

Definition mock3 : GoogleBookItem :=
  mkItem (str "mock3")
    (mkVolumeInfo (str "Clean Code")
       (Some [str "Robert C. Martin"])
       (Some (str "2008"))
       (Some (str "A handbook of agile software craftsmanship with practical advice on writing clean code."))
       (Some (mkImageLinks
                (Some (str "https://via.placeholder.com/128x192.png?text=Clean+Code"))
                None))).

Definition mock4 : GoogleBookItem :=
  mkItem (str "mock4")
    (mkVolumeInfo (str "The Pragmatic Programmer")
       (Some [str "David Thomas"; str "Andrew Hunt"])
       (Some (str "1999"))
       (Some (str "Your journey to mastery in software development."))
       (Some (mkImageLinks
                (Some (str "https://via.placeholder.com/128x192.png?text=Pragmatic"))
                None))).

Definition mock5 : GoogleBookItem :=
  mkItem (str "mock5")
    (mkVolumeInfo (str "You Don't Know JS")
       (Some [str "Kyle Simpson"])
       (Some (str "2015"))
       (Some (str "A deep dive into the core mechanisms of JavaScript."))
       (Some (mkImageLinks
                (Some (str "https://via.placeholder.com/128x192.png?text=YDKJS"))
                None))).

Definition mockItems : list GoogleBookItem := [mock1; mock2; mock3; mock4; mock5].

Definition mockBooks : GoogleBooksResponse :=
  mkResponse (str "books#volumes") 5%N (Some mockItems).

(** [s.startsWith(p)] *)
Fixpoint startsWith (p s : jsstring) : bool :=
  match p, s with
  | [], _ => true
  | x :: p', y :: s' => N.eqb x y && startsWith p' s'
  | _ :: _, [] => false
  end.

(** [s.includes(sub)] *)
Fixpoint includes (s sub : jsstring) : bool :=
  match s with
  | [] => startsWith sub []
  | _ :: rest => startsWith sub s || includes rest sub
  end.

Section MockBooksApi.

(** [String.prototype.toLowerCase], the host's Unicode case mapping. *)
Variable toLowerCase : jsstring -> jsstring.

(** The predicate of the filter: the title, or some author, contains the
    query, case apart. *)
Definition mock_matches (query : jsstring) (item : GoogleBookItem) : bool :=
  includes (toLowerCase (vi_title (volumeInfo item))) (toLowerCase query)
  || match vi_authors (volumeInfo item) with
     | Some names =>
         existsb (fun a => includes (toLowerCase a) (toLowerCase query)) names
     | None => false
     end.

(** [mockBooksApi.searchBooks], its delay apart. *)
Definition mock_searchBooks (params : SearchParams)
    : completion GoogleBooksResponse :=
  if truthy (q params) then
    let filtered := filter (mock_matches (q params)) mockItems in
    Normal {| kind := kind mockBooks;
              totalItems := N.of_nat (length filtered);
              items := Some filtered |}
  else Normal mockBooks.

End MockBooksApi.

(** [mockBooksApi.getBookById], its delay apart. *)
Definition mock_getBookById (bookId : jsstring) : completion GoogleBookItem :=
  match find (fun item => jsstring_eqb (item_id item) bookId) mockItems with
  | Some item => Normal item
  | None =>
      Throw (ErrorObject (str "Error")
               (str "Book with ID " ++ bookId ++ str " not found"))
  end.

Definition mockBooksApi (toLowerCase : jsstring -> jsstring) : BooksApi :=
  mkApi (mock_searchBooks toLowerCase).

Definition mockDetailsApi : BookDetailsPage.DetailsApi :=
  BookDetailsPage.mkDetailsApi mock_getBookById.

(** One call of [console.warn]. *)
Definition warning : Type := (jsstring * option thrown)%type.

(** [getBooksApi]: [apiKey] is the environment's VITE_GOOGLE_BOOKS_API_KEY,
    [imported] is how the dynamic import of the real service settles, [mock]
    is [mockBooksApi].  The result is how the promise settles, and what was
    written to the console. *)
Definition getBooksApi {Api : Type} (apiKey : option jsstring)
    (imported : completion Api) (mock : Api) : completion Api * list warning :=
  match apiKey with
  | Some (_ :: _) =>
      match imported with
      | Normal googleBooksApi => (Normal googleBooksApi, [])
      | Throw e =>
          (Normal mock,
           [(str "Using mock books API due to error loading real API:", Some e)])
      end
  | _ =>
      (Normal mock, [(str "Using mock books API due to missing API key", None)])
  end.

(* ================================================================= *)
(** ** The real collaborator ([services/googleBooksApi.ts]) *)

Definition BASE_URL : jsstring := str "https://www.googleapis.com/books/v1/volumes".

(** What [fetch] resolves to, as far as the service reads it: [ok],
    [status], and how [response.json()] settles. *)
Record FetchResponse (T : Type) : Type := mkFetchResponse {
  ok : bool;
  http_status : N;
  json : completion T
}.

Arguments mkFetchResponse {T}.
Arguments ok {T}.
Arguments http_status {T}.
Arguments json {T}.

(** What a call of the service did besides settling: the URLs it fetched
    and what it wrote with [console.error]. *)
Record ServiceTrace : Type := mkTrace {
  fetched : list jsstring;
  service_log : list diagnostic
}.

Definition not_configured : thrown :=
  ErrorObject (str "Error") (str "Google Books API key is not configured").

Module googleBooksApi.

Section Service.

(** The environment's VITE_GOOGLE_BOOKS_API_KEY. *)
Variable API_KEY : option jsstring.

(** Functions of the host: [Number.prototype.toString], and the text of
    the [URL] made from a base by appending search parameters in order. *)
Variable number_toString : N -> jsstring.
Variable url_toString : jsstring -> list (jsstring * jsstring) -> jsstring.

Definition key_is_missing : bool :=
  match API_KEY with
  | Some (_ :: _) => false
  | _ => true
  end.

Definition key_text : jsstring :=
  match API_KEY with Some k => k | None => [] end.

(** The [try] block that both functions share: fetch, refuse a response
    that is not [ok], read the body; whatever is thrown on the way is
    logged under [label] and thrown again. *)
Definition fetch_json {T : Type} (fetch : jsstring -> completion (FetchResponse T))
    (url label : jsstring) : completion T * ServiceTrace :=
  let attempt : completion T :=
    match fetch url with
    | Throw e => Throw e
    | Normal response =>
        if negb (ok response) then
          Throw (ErrorObject (str "Error")
                   (str "API request failed with status "
                    ++ number_toString (http_status response)))
        else json response
    end in
  match attempt with
  | Normal data => (Normal data, mkTrace [url] [])
  | Throw e => (Throw e, mkTrace [url] [(label, e)])
  end.

Definition searchBooks
    (fetch : jsstring -> completion (FetchResponse GoogleBooksResponse))
    (params : SearchParams) : completion GoogleBooksResponse * ServiceTrace :=
  let maxResults_ := match maxResults params with Some n => n | None => 10%N end in
  let startIndex_ := match startIndex params with Some n => n | None => 0%N end in
  if key_is_missing then (Throw not_configured, mkTrace [] [])
  else
    let url :=
      url_toString BASE_URL
        [ (str "q", q params);
          (str "maxResults", number_toString maxResults_);
          (str "startIndex", number_toString startIndex_);
          (str "key", key_text) ] in
    fetch_json fetch url (str "Error fetching books:").

Definition getBookById
    (fetch : jsstring -> completion (FetchResponse GoogleBookItem))
    (bookId : jsstring) : completion GoogleBookItem * ServiceTrace :=
  if key_is_missing then (Throw not_configured, mkTrace [] [])
  else
    let url := BASE_URL ++ str "/" ++ bookId ++ str "?key=" ++ key_text in
    fetch_json fetch url (str "Error fetching book details:").

End Service.

End googleBooksApi.

(* ================================================================= *)
(** ** Vocabulary of the statements *)

(** The untyped image of a state of the reducer. *)
Definition js_of_state (state : BookCollectionState Book)
    : BookCollectionState jsval :=
  {| books := map js_of_book (books state);
     searchResults := map js_of_book (searchResults state);
     isLoading := isLoading state;
     error := error state;
     currentlyReading := map js_of_book (currentlyReading state);
     wantToRead := map js_of_book (wantToRead state);
     haveRead := map js_of_book (haveRead state) |}.

(** The world after one more [console.error(label, e)]. *)
Definition logged (label : jsstring) (e : thrown) (w : World) : World :=
  {| localStorage := localStorage w;
     console := console w ++ [(label, e)];
     dispatched := dispatched w;
     requests := requests w |}.

(** The seven properties of a [Book], as name and string value. *)
Definition book_fields (b : Book) : list (jsstring * jsstring) :=
  [ (str "id", id b); (str "title", title b); (str "author", author b);
    (str "publishedDate", publishedDate b); (str "description", description b);
    (str "thumbnail", thumbnail b); (str "status", status_string (status b)) ].

Definition string_member (kv : jsstring * jsstring) : jsstring * jsval :=
  (fst kv, JStr (snd kv)).

(** The text of a property whose value is a string. *)
Definition member_text (kv : jsstring * jsstring) : jsstring :=
  QuoteJSONString (fst kv) ++ [58%N] ++ QuoteJSONString (snd kv).

Definition book_text (b : Book) : jsstring := JSON_stringify (js_of_book b).

(** A successful parse of a value consumes text, and succeeds alike with any
    fuel from twice the consumed length on (minus one). *)
Definition enough_value (s : jsstring) (v : jsval) (r : jsstring) : Prop :=
  length r < length s
  /\ forall f', 2 * (length s - length r) - 1 <= f' ->
       parse_value f' s = Some (v, r).

(** The same for the elements of an array and the members of an object. *)
Definition enough_elements (s : jsstring) (vs : list jsval) (r : jsstring) : Prop :=
  length r < length s
  /\ forall f', 2 * (length s - length r) <= f' ->
       parse_elements f' s = Some (vs, r).

Definition enough_members (s : jsstring) (ms : list (jsstring * jsval)) (r : jsstring) : Prop :=
  length r < length s
  /\ forall f', 2 * (length s - length r) <= f' ->
       parse_members f' s = Some (ms, r).

(** An action whose payload, if it is a whole collection, has no id twice. *)
Definition payload_ids_unique (a : Action) : Prop :=
  match a with
  | LOAD_FROM_STORAGE payload => NoDup (map id payload)
  | _ => True
  end.

(** The fields of a record that UPDATE_BOOK_STATUS is not meant to touch. *)
Definition descriptive_fields (b : Book)
    : jsstring * jsstring * jsstring * jsstring * jsstring * jsstring :=
  (id b, title b, author b, publishedDate b, description b, thumbnail b).

(** The slot of the collection holds the text of the [books] of a state. *)
Definition in_sync (state : BookCollectionState Book) (st : Storage) : Prop :=
  storage_get STORAGE_KEY (entries st)
  = Some (JSON_stringify (JArr (map js_of_book (books state)))).

(** [v.status === lit] for an element that is not [null]. *)
Definition status_is (lit : jsstring) (v : jsval) : bool :=
  match get_status v with
  | Normal p => strict_equals_string p lit
  | Throw _ => false
  end.

Definition is_null (v : jsval) : bool :=
  match v with JNull => true | _ => false end.

(** One more character in front of a parsed string. *)
Definition cons_result (c : N) (r : option (jsstring * jsstring))
    : option (jsstring * jsstring) :=
  match r with
  | Some (cs, rest) => Some (c :: cs, rest)
  | None => None
  end.

(* ================================================================= *)
(** ** Sample data *)

Definition dune : Book :=
  mkBook (str "1") (str "Dune") (str "Frank Herbert") (str "1965")
         (str "A desert planet.") (str "https://example.com/dune.jpg")
         want_to_read.

(** The same catalogue entry, stored a second time with another status. *)
Definition dune_again : Book := set_status dune have_read.

Definition dune_revised : Book :=
  mkBook (str "1") (str "Dune (revised)") (str "Frank Herbert") (str "1984")
         (str "A desert planet, again.") (str "https://example.com/dune2.jpg")
         currently_reading.

Definition emma : Book :=
  mkBook (str "2") (str "Emma") (str "Jane Austen") (str "1815")
         (str "A matchmaker.") (str "https://example.com/emma.jpg")
         have_read.

(** [{ id: 'x', volumeInfo: { title: 'T' } }] *)
Definition bare_item : GoogleBookItem :=
  mkItem (str "x") (mkVolumeInfo (str "T") None None None None).

(** [{ id: 'x', volumeInfo: { title: 'T', authors: [''] } }] *)
Definition item_with_blank_author : GoogleBookItem :=
  mkItem (str "x") (mkVolumeInfo (str "T") (Some [[]]) None None None).

(** A collaborator whose search rejects with [new Error('Search failed')]. *)
Definition failing_api : BooksApi :=
  mkApi (fun _ => Throw (ErrorObject (str "Error") (str "Search failed"))).

(** A collaborator that finds nothing. *)
Definition empty_api : BooksApi :=
  mkApi (fun _ => Normal (mkResponse (str "books#volumes") 0%N (Some []))).

Definition empty_storage : Storage := mkStorage [] None.

(** A slot that holds [text] under the key of the collection. *)
Definition storage_with (text : jsstring) : Storage :=
  mkStorage [(STORAGE_KEY, text)] None.

(* ================================================================= *)
(** * Properties *)

Unset Implicit Arguments.

(** Case analysis on the comparisons of code units in the goal. *)
Ltac cmp :=
  repeat match goal with
  | |- context [N.leb ?a ?b] => destruct (N.leb_spec a b)
  | |- context [N.ltb ?a ?b] => destruct (N.ltb_spec a b)
  | |- context [N.eqb ?a ?b] => destruct (N.eqb_spec a b)
  end; cbn [andb orb negb]; try lia; try (exfalso; lia).

(** Lists as [x :: l] and right-nested [++]. *)
Ltac norm := repeat rewrite <- app_assoc; cbn [app].

(** ** Strings *)

Lemma jsstring_eqb_eq (a b : jsstring) : jsstring_eqb a b = true <-> a = b.
Proof.
  revert b; induction a as [|x a IH]; intros [|y b]; simpl;
    try (split; [discriminate | congruence]); try tauto.
  rewrite andb_true_iff, N.eqb_eq, IH.
  split; [intros [-> ->]; reflexivity | intros H; inversion H; auto].
Qed.

Lemma jsstring_eqb_refl (a : jsstring) : jsstring_eqb a a = true.
Proof. apply jsstring_eqb_eq; reflexivity. Qed.

Lemma jsstring_eqb_neq (a b : jsstring) : jsstring_eqb a b = false <-> a <> b.
Proof.
  rewrite <- jsstring_eqb_eq.
  destruct (jsstring_eqb a b); split; congruence.
Qed.

Lemma BookStatus_eqb_eq (a b : BookStatus) : BookStatus_eqb a b = true <-> a = b.
Proof. destruct a, b; simpl; split; congruence. Qed.

Lemma trimStart_nil (s : jsstring) :
  trimStart s = [] <-> forallb is_js_whitespace s = true.
Proof.
  induction s as [|c s IH]; simpl; [tauto|].
  destruct (is_js_whitespace c); simpl; [exact IH|].
  split; discriminate.
Qed.

Lemma forallb_rev {A : Type} (f : A -> bool) (l : list A) :
  forallb f (rev l) = forallb f l.
Proof.
  induction l as [|x l IH]; simpl; [reflexivity|].
  rewrite forallb_app, IH; simpl.
  rewrite andb_true_r; apply andb_comm.
Qed.

Lemma forallb_trimStart (s : jsstring) :
  forallb is_js_whitespace (trimStart s) = forallb is_js_whitespace s.
Proof.
  induction s as [|c s IH]; simpl; [reflexivity|].
  destruct (is_js_whitespace c) eqn:E; simpl; [exact IH|].
  rewrite E; reflexivity.
Qed.

(** [query.trim()] is the empty string exactly when every code unit of the
    query is white space. *)
Lemma trim_nil (s : jsstring) :
  trim s = [] <-> forallb is_js_whitespace s = true.
Proof.
  unfold trim, trimEnd.
  rewrite <- forallb_trimStart.
  rewrite <- (forallb_rev _ (trimStart s)).
  rewrite <- trimStart_nil.
  split; intros H.
  - apply (f_equal (@rev N)) in H; rewrite rev_involutive in H; exact H.
  - rewrite H; reflexivity.
Qed.

Lemma truthy_trim (s : jsstring) :
  truthy (trim s) = negb (forallb is_js_whitespace s).
Proof.
  destruct (forallb is_js_whitespace s) eqn:E.
  - apply trim_nil in E; rewrite E; reflexivity.
  - destruct (trim s) eqn:T; [|reflexivity].
    apply trim_nil in T; congruence.
Qed.

(* ----------------------------------------------------------------- *)
(** ** The reducer *)

Lemma with_books_consistent (state : BookCollectionState Book) (bs : list Book) :
  derived_consistent (with_books state bs).
Proof. unfold derived_consistent; simpl; auto. Qed.

Lemma initialState_consistent : derived_consistent (@initialState Book).
Proof. unfold derived_consistent; simpl; auto. Qed.

(** Every action keeps the stored arrays equal to the filters of [books]:
    the three actions that change [books] recompute them, the others touch
    neither. *)
Lemma reducer_preserves_consistency (state : BookCollectionState Book)
    (action : Action) :
  derived_consistent state ->
  derived_consistent (bookCollectionReducer state action).
Proof.
  intros H; destruct action; simpl;
    try apply with_books_consistent; exact H.
Qed.

Lemma dispatch_all_consistent (actions : list Action)
    (state : BookCollectionState Book) :
  derived_consistent state ->
  derived_consistent (dispatch_all state actions).
Proof.
  unfold dispatch_all; revert state.
  induction actions as [|a actions IH]; intros state H; simpl; [exact H|].
  apply IH, reducer_preserves_consistency, H.
Qed.

Lemma consistent_view (state : BookCollectionState Book) (s : BookStatus) :
  derived_consistent state ->
  derived_view state s = getBooksByStatus state s.
Proof.
  intros (Hc & Hw & Hh); destruct s; simpl; unfold getBooksByStatus; assumption.
Qed.

(** C1.  In every state that the reducer reaches from the initial state, by
    any sequence of the eight actions, each stored derived array is the
    filter of [books] by its status ([getBooksByStatus] computes that
    filter); so the three arrays partition [books]: a record of [books] is in
    the array of its own status and in no other, and a record of an array is
    a record of [books] with that status. *)
Theorem derived_arrays_partition_books (actions : list Action) :
  let state := dispatch_all initialState actions in
  (currentlyReading state
     = filter (fun b => BookStatus_eqb (status b) currently_reading) (books state)
   /\ wantToRead state
     = filter (fun b => BookStatus_eqb (status b) want_to_read) (books state)
   /\ haveRead state
     = filter (fun b => BookStatus_eqb (status b) have_read) (books state))
  /\ (forall b, In b (books state) ->
        In b (derived_view state (status b))
        /\ forall s, s <> status b -> ~ In b (derived_view state s))
  /\ (forall b s, In b (derived_view state s) ->
        In b (books state) /\ status b = s).
Proof.
  intros state.
  assert (H : derived_consistent state)
    by apply dispatch_all_consistent, initialState_consistent.
  split; [exact H|].
  assert (V : forall s, derived_view state s = getBooksByStatus state s)
    by (intros s; apply consistent_view, H).
  split.
  - intros b Hb; split.
    + rewrite V; unfold getBooksByStatus.
      apply filter_In; split; [exact Hb | apply BookStatus_eqb_eq; reflexivity].
    + intros s Hs Hin. rewrite V in Hin; unfold getBooksByStatus in Hin.
      apply filter_In in Hin; destruct Hin as [_ E].
      apply BookStatus_eqb_eq in E; congruence.
  - intros b s Hin. rewrite V in Hin; unfold getBooksByStatus in Hin.
    apply filter_In in Hin; destruct Hin as [Hb E].
    apply BookStatus_eqb_eq in E; auto.
Qed.

(* ----------------------------------------------------------------- *)
(** ** Adding, removing, updating *)

Lemma filter_length_split {A : Type} (f : A -> bool) (l : list A) :
  length (filter f l) + length (filter (fun x => negb (f x)) l) = length l.
Proof.
  induction l as [|x l IH]; simpl; [reflexivity|].
  destruct (f x); simpl; lia.
Qed.

Lemma filter_none {A : Type} (f : A -> bool) (l : list A) :
  (forall x, In x l -> f x = false) -> filter f l = [].
Proof.
  induction l as [|x l IH]; intros H; simpl; [reflexivity|].
  rewrite (H x (or_introl eq_refl)).
  apply IH; intros y Hy; apply H; right; exact Hy.
Qed.

Lemma count_id_after_add (b : Book) (bs : list Book) :
  count_id (id b)
    (filter (fun book => negb (jsstring_eqb (id book) (id b))) bs ++ [b]) = 1.
Proof.
  unfold count_id.
  rewrite filter_app, length_app; simpl.
  rewrite jsstring_eqb_refl; simpl.
  rewrite filter_none; [reflexivity|].
  intros x Hx; apply filter_In in Hx; destruct Hx as [_ E].
  destruct (jsstring_eqb (id x) (id b)); [discriminate | reflexivity].
Qed.

Lemma add_book_length (b : Book) (bs : list Book) :
  length (filter (fun book => negb (jsstring_eqb (id book) (id b))) bs ++ [b])
  + count_id (id b) bs
  = length bs + 1.
Proof.
  unfold count_id; rewrite length_app; simpl.
  pose proof (filter_length_split (fun book => jsstring_eqb (id book) (id b)) bs).
  lia.
Qed.

(** C3, as the code has it.  When [books] holds exactly one record with the
    id of the added record (which is the case whenever it holds one and the
    ids of [books] are unique), ADD_BOOK leaves the length of [books] as it
    was.  In every state, the new [books] has exactly one record with that
    id, it is the added record, with all its field values, and it stands
    last; the records stored under that id before are gone, however many
    there were. *)
Theorem add_book_replaces_same_id (state : BookCollectionState Book) (b : Book) :
  count_id (id b) (books state) = 1 ->
  let state' := bookCollectionReducer state (ADD_BOOK b) in
  length (books state') = length (books state)
  /\ count_id (id b) (books state') = 1
  /\ (forall x, In x (books state') -> id x = id b -> x = b)
  /\ last (books state') b = b
  /\ (forall x, id x <> id b -> (In x (books state') <-> In x (books state))).
Proof.
  intros H state'; subst state'; simpl.
  repeat split.
  - pose proof (add_book_length b (books state)); lia.
  - apply count_id_after_add.
  - intros x Hx E.
    apply in_app_or in Hx; destruct Hx as [Hx | [Hx | []]]; [|auto].
    apply filter_In in Hx; destruct Hx as [_ N].
    apply jsstring_eqb_eq in E; rewrite E in N; discriminate.
  - apply last_last.
  - intros Hx; apply in_app_or in Hx; destruct Hx as [Hx | [Hx | []]].
    + apply filter_In in Hx; tauto.
    + subst x; congruence.
  - intros Hx; apply in_or_app; left; apply filter_In; split; [exact Hx|].
    apply negb_true_iff, jsstring_eqb_neq; assumption.
Qed.

(** With no record of the given id in [books], UPDATE_BOOK_STATUS maps every
    record to itself: [books] and the transient fields stay as they are in
    any state, and the recomputed arrays are the stored ones as soon as the
    stored ones are the filters of [books]. *)
Lemma update_status_keeps_books (state : BookCollectionState Book)
    (i : jsstring) (s : BookStatus) :
  ~ In i (map id (books state)) ->
  bookCollectionReducer state (UPDATE_BOOK_STATUS i s)
  = with_books state (books state).
Proof.
  intros Hno; simpl.
  f_equal.
  rewrite <- (map_id (books state)) at 2.
  apply map_ext_in; intros x Hx.
  destruct (jsstring_eqb (id x) i) eqn:Ei; [|reflexivity].
  apply jsstring_eqb_eq in Ei; subst i.
  exfalso; apply Hno, in_map, Hx.
Qed.

Lemma with_same_books (state : BookCollectionState Book) :
  derived_consistent state -> with_books state (books state) = state.
Proof.
  intros (Hc & Hw & Hh); unfold with_books.
  rewrite <- Hc, <- Hw, <- Hh.
  destruct state; reflexivity.
Qed.

(** C8.  In every state of the store (every state that the reducer reaches
    from the initial state) whose [books] has no record with the given id,
    UPDATE_BOOK_STATUS with that id and any status returns the state it was
    given: all seven fields are unchanged. *)
Theorem update_status_unknown_id_is_noop (actions : list Action)
    (i : jsstring) (s : BookStatus) :
  let state := dispatch_all initialState actions in
  ~ In i (map id (books state)) ->
  bookCollectionReducer state (UPDATE_BOOK_STATUS i s) = state.
Proof.
  intros state Hno.
  rewrite (update_status_keeps_books state i s Hno).
  apply with_same_books, dispatch_all_consistent, initialState_consistent.
Qed.

(** C10.  ADD_BOOK, REMOVE_BOOK and UPDATE_BOOK_STATUS leave [searchResults],
    [isLoading] and [error] as they were. *)
Theorem collection_actions_keep_transient_fields
    (state : BookCollectionState Book) (b : Book) (i : jsstring)
    (s : BookStatus) :
  let same (state' : BookCollectionState Book) :=
    searchResults state' = searchResults state
    /\ isLoading state' = isLoading state
    /\ error state' = error state in
  same (bookCollectionReducer state (ADD_BOOK b))
  /\ same (bookCollectionReducer state (REMOVE_BOOK i))
  /\ same (bookCollectionReducer state (UPDATE_BOOK_STATUS i s)).
Proof. simpl; repeat split. Qed.

Lemma add_book_replaces_same_id_witness :
  count_id (id dune_revised) [emma; dune] = 1
  /\ length (books (bookCollectionReducer
                      (bookCollectionReducer initialState
                         (LOAD_FROM_STORAGE [emma; dune]))
                      (ADD_BOOK dune_revised))) = 2.
Proof.
  split; [reflexivity|].
  apply (@add_book_replaces_same_id
           (bookCollectionReducer initialState (LOAD_FROM_STORAGE [emma; dune]))
           dune_revised).
  reflexivity.
Defined.

(** C3 as the specification words it fails where [books] holds the id more
    than once, as it does after loading such a collection: the state has a
    record with the id of the added one, and ADD_BOOK shortens [books] from
    two records to one. *)
Lemma add_book_shrinks_duplicated_id :
  let state :=
    bookCollectionReducer initialState (LOAD_FROM_STORAGE [dune; dune_again]) in
  let state' := bookCollectionReducer state (ADD_BOOK dune_revised) in
  (exists x, In x (books state) /\ id x = id dune_revised)
  /\ length (books state) = 2
  /\ length (books state') = 1
  /\ length (books state') <> length (books state).
Proof.
  simpl; repeat split; try discriminate.
  exists dune; split; [left; reflexivity | reflexivity].
Qed.

Lemma update_status_unknown_id_is_noop_witness :
  let state := dispatch_all initialState [ADD_BOOK emma; ADD_BOOK dune] in
  ~ In (str "3") (map id (books state))
  /\ bookCollectionReducer state (UPDATE_BOOK_STATUS (str "3") have_read)
     = state.
Proof.
  intros state.
  assert (Hi : ~ In (str "3") (map id (books state)))
    by (simpl; intros [H | [H | []]]; discriminate H).
  split; [exact Hi|].
  exact (update_status_unknown_id_is_noop
           [ADD_BOOK emma; ADD_BOOK dune] (str "3") have_read Hi).
Defined.

(** Removing an id that [books] does not hold leaves [books] as it is. *)
Lemma remove_unknown_id_keeps_books (state : BookCollectionState Book)
    (i : jsstring) :
  ~ In i (map id (books state)) ->
  books (bookCollectionReducer state (REMOVE_BOOK i)) = books state.
Proof.
  intros Hno; simpl.
  induction (books state) as [|x bs IH]; [reflexivity|].
  simpl in *.
  destruct (jsstring_eqb (id x) i) eqn:E.
  - apply jsstring_eqb_eq in E; tauto.
  - simpl; f_equal; apply IH; tauto.
Qed.

(** The collection [[{id: "1", status: "want-to-read"}]] after
    UPDATE_BOOK_STATUS("1", "have-read"). *)
Example update_status_moves_between_views :
  let state :=
    dispatch_all initialState
      [ADD_BOOK dune; UPDATE_BOOK_STATUS (str "1") have_read] in
  books state = [dune_again]
  /\ wantToRead state = []
  /\ currentlyReading state = []
  /\ haveRead state = [dune_again].
Proof. repeat split. Qed.

(* ----------------------------------------------------------------- *)
(** ** Searching *)

Lemma searchBooks_blank (getBooksApi : completion BooksApi) (query : jsstring) :
  forallb is_js_whitespace query = true ->
  searchBooks getBooksApi query = dispatch CLEAR_SEARCH.
Proof.
  intros H; unfold searchBooks; rewrite truthy_trim, H; reflexivity.
Qed.

Lemma searchBooks_not_blank (getBooksApi : completion BooksApi)
    (query : jsstring) :
  forallb is_js_whitespace query = false ->
  truthy (trim query) = true.
Proof. intros H; rewrite truthy_trim, H; reflexivity. Qed.

Lemma dispatch_all_app (state : BookCollectionState Book)
    (xs ys : list Action) :
  dispatch_all state (xs ++ ys) = dispatch_all (dispatch_all state xs) ys.
Proof. apply fold_left_app. Qed.

(** C6.  A query of white space only (the empty query included) reaches no
    collaborator: [searchBooks] records no request, logs nothing, dispatches
    CLEAR_SEARCH and nothing else, and the state that results has no search
    results and no error, with [isLoading] (and the collection) as before. *)
Theorem blank_query_only_clears_search (getBooksApi : completion BooksApi)
    (query : jsstring) (w : World) (state : BookCollectionState Book)
    (st : Storage) :
  forallb is_js_whitespace query = true ->
  let w' := snd (searchBooks getBooksApi query w) in
  let state' := state_after (searchBooks getBooksApi query) state st in
  fst (searchBooks getBooksApi query w) = Normal tt
  /\ requests w' = requests w
  /\ dispatched w' = dispatched w ++ [CLEAR_SEARCH]
  /\ console w' = console w
  /\ searchResults state' = []
  /\ error state' = None
  /\ isLoading state' = isLoading state
  /\ books state' = books state.
Proof.
  intros H; unfold state_after.
  rewrite (searchBooks_blank getBooksApi query H); simpl.
  repeat split.
Qed.

Lemma blank_query_only_clears_search_witness :
  forallb is_js_whitespace (str "   ") = true
  /\ dispatched (snd (searchBooks (Normal failing_api) (str "   ")
                        (quiet empty_storage))) = [CLEAR_SEARCH].
Proof.
  split; [reflexivity|].
  apply (@blank_query_only_clears_search (Normal failing_api) (str "   ")
           (quiet empty_storage) initialState empty_storage).
  reflexivity.
Defined.

(** What a search that found nothing dispatches. *)
Lemma searchBooks_empty_answer (api : BooksApi) (response : GoogleBooksResponse)
    (query : jsstring) (w : World) :
  forallb is_js_whitespace query = false ->
  api_searchBooks api
    {| q := query; startIndex := None; maxResults := Some 10%N |}
    = Normal response ->
  response_is_empty response = true ->
  dispatched (snd (searchBooks (Normal api) query w))
  = dispatched w
    ++ [SET_LOADING true; SET_SEARCH_RESULTS []; SET_ERROR (Some no_books_found)].
Proof.
  intros Hq Hr He; unfold searchBooks.
  rewrite (searchBooks_not_blank (Normal api) query Hq); simpl.
  unfold try_catch, bind, dispatch, call_getBooksApi, call_searchBooks; simpl.
  rewrite Hr, He; simpl.
  repeat rewrite <- app_assoc; reflexivity.
Qed.

(** C7.  When the query is not blank and the collaborator answers with no
    items, the state after the search has no search results, the error
    "No books found matching your search." and [isLoading] false. *)
Theorem empty_answer_becomes_error (api : BooksApi)
    (response : GoogleBooksResponse) (query : jsstring)
    (state : BookCollectionState Book) (st : Storage) :
  forallb is_js_whitespace query = false ->
  api_searchBooks api
    {| q := query; startIndex := None; maxResults := Some 10%N |}
    = Normal response ->
  items response = Some [] \/ items response = None ->
  let state' := state_after (searchBooks (Normal api) query) state st in
  searchResults state' = []
  /\ error state' = Some no_books_found
  /\ isLoading state' = false.
Proof.
  intros Hq Hr Hz; unfold state_after.
  rewrite (searchBooks_empty_answer api response query (quiet st) Hq Hr).
  - simpl; repeat split.
  - unfold response_is_empty; destruct Hz as [-> | ->]; reflexivity.
Qed.

Lemma empty_answer_becomes_error_witness :
  let state' :=
    state_after (searchBooks (Normal empty_api) (str "empty")) initialState
      empty_storage in
  searchResults state' = []
  /\ error state' = Some no_books_found
  /\ isLoading state' = false.
Proof.
  apply (@empty_answer_becomes_error empty_api
           (mkResponse (str "books#volumes") 0%N (Some []))
           (str "empty") initialState empty_storage).
  - reflexivity.
  - reflexivity.
  - left; reflexivity.
Defined.

(** What a search dispatches when the collaborator rejects: SET_ERROR with
    the message, and then SET_SEARCH_RESULTS, whose transition clears the
    error again. *)
Lemma searchBooks_rejected (api : BooksApi) (e : thrown) (query : jsstring)
    (w : World) :
  forallb is_js_whitespace query = false ->
  api_searchBooks api
    {| q := query; startIndex := None; maxResults := Some 10%N |}
    = Throw e ->
  dispatched (snd (searchBooks (Normal api) query w))
  = dispatched w
    ++ [SET_LOADING true;
        SET_ERROR (Some (if instanceof_Error e then error_message e
                         else str "An unknown error occurred while searching"));
        SET_SEARCH_RESULTS []].
Proof.
  intros Hq Hr; unfold searchBooks.
  rewrite (searchBooks_not_blank (Normal api) query Hq); simpl.
  unfold try_catch, bind, dispatch, call_getBooksApi, call_searchBooks,
    console_error; simpl.
  rewrite Hr; simpl.
  repeat rewrite <- app_assoc; reflexivity.
Qed.

Lemma rejected_search_ends_without_error (api : BooksApi) (e : thrown)
    (query : jsstring) (state : BookCollectionState Book) (st : Storage) :
  forallb is_js_whitespace query = false ->
  api_searchBooks api
    {| q := query; startIndex := None; maxResults := Some 10%N |}
    = Throw e ->
  let state' := state_after (searchBooks (Normal api) query) state st in
  searchResults state' = [] /\ error state' = None /\ isLoading state' = false.
Proof.
  intros Hq Hr; unfold state_after.
  rewrite (searchBooks_rejected api e query (quiet st) Hq Hr).
  simpl; repeat split.
Qed.

(** C2, on the code.  The search for "error" against a collaborator that
    rejects with the message "Search failed": the handler dispatches
    SET_ERROR with that message and then SET_SEARCH_RESULTS, and the state
    that results has an empty [searchResults] and no error at all. *)
Theorem failed_search_loses_its_error :
  let run := searchBooks (Normal failing_api) (str "error") in
  let state' := state_after run initialState empty_storage in
  dispatched (snd (run (quiet empty_storage)))
  = [SET_LOADING true; SET_ERROR (Some (str "Search failed"));
     SET_SEARCH_RESULTS []]
  /\ console (snd (run (quiet empty_storage)))
     = [(str "Search error:", ErrorObject (str "Error") (str "Search failed"))]
  /\ searchResults state' = []
  /\ error state' = None
  /\ isLoading state' = false.
Proof. vm_compute; repeat split. Qed.

(* ----------------------------------------------------------------- *)
(** ** The mapping adapter *)

(** C9, as the code has it.  For an item without publishedDate, description
    and thumbnail, the adapter copies id and title, fills in "Unknown Date",
    "No description available" and the placeholder URI, and gives the status
    it was handed ([want_to_read] when it was handed none).  The author is
    "Unknown Author" when the authors are absent, when the list is empty, and
    whenever the authors joined with ", " make the empty string; otherwise it
    is the authors joined with ", ". *)
Theorem mapper_fills_defaults (item : GoogleBookItem)
    (status_arg : option BookStatus) :
  vi_publishedDate (volumeInfo item) = None ->
  vi_description (volumeInfo item) = None ->
  (vi_imageLinks (volumeInfo item) = None
   \/ exists links, vi_imageLinks (volumeInfo item) = Some links
                    /\ il_thumbnail links = None) ->
  let b := mapGoogleBookToBook item status_arg in
  id b = item_id item
  /\ title b = vi_title (volumeInfo item)
  /\ publishedDate b = str "Unknown Date"
  /\ description b = str "No description available"
  /\ thumbnail b = str "https://via.placeholder.com/128x192.png?text=No+Cover"
  /\ status b = match status_arg with Some s => s | None => want_to_read end
  /\ (vi_authors (volumeInfo item) = None -> author b = str "Unknown Author")
  /\ (vi_authors (volumeInfo item) = Some [] -> author b = str "Unknown Author")
  /\ (forall names, vi_authors (volumeInfo item) = Some names ->
        join (str ", ") names = [] -> author b = str "Unknown Author")
  /\ (forall names, vi_authors (volumeInfo item) = Some names ->
        join (str ", ") names <> [] -> author b = join (str ", ") names).
Proof.
  intros Hd Hp Ht b; subst b; unfold mapGoogleBookToBook; simpl.
  rewrite Hd, Hp; simpl.
  repeat split.
  - destruct Ht as [-> | (links & -> & ->)]; reflexivity.
  - intros ->; reflexivity.
  - intros ->; reflexivity.
  - intros names -> E; simpl; rewrite E; reflexivity.
  - intros names -> E; simpl.
    destruct (join (str ", ") names); [congruence | reflexivity].
Qed.

Lemma mapper_fills_defaults_witness :
  mapGoogleBookToBook bare_item None
  = mkBook (str "x") (str "T") (str "Unknown Author") (str "Unknown Date")
           (str "No description available")
           (str "https://via.placeholder.com/128x192.png?text=No+Cover")
           want_to_read.
Proof.
  destruct (@mapper_fills_defaults bare_item None eq_refl eq_refl
              (or_introl eq_refl))
    as (H1 & H2 & H3 & H4 & H5 & H6 & H7 & _).
  specialize (H7 eq_refl).
  destruct (mapGoogleBookToBook bare_item None); simpl in *.
  congruence.
Defined.

(** C9 as the specification words it fails on a non-empty list of authors
    whose join is empty: for the authors [['']] the adapter answers
    "Unknown Author", not the joined string. *)
Lemma blank_author_is_unknown_author :
  vi_authors (volumeInfo item_with_blank_author) = Some [[]]
  /\ [[]] <> ([] : list jsstring)
  /\ join (str ", ") [[]] = []
  /\ author (mapGoogleBookToBook item_with_blank_author None)
     = str "Unknown Author"
  /\ author (mapGoogleBookToBook item_with_blank_author None)
     <> join (str ", ") [[]].
Proof. repeat split; discriminate. Qed.

Example mapper_joins_authors :
  author (mapGoogleBookToBook
            (mkItem (str "test-id")
               (mkVolumeInfo (str "Test Book")
                  (Some [str "Author One"; str "Author Two"])
                  (Some (str "2021-01-01")) (Some (str "Text"))
                  (Some (mkImageLinks (Some (str "https://example.com/t.jpg"))
                           None))))
            None)
  = str "Author One, Author Two".
Proof. reflexivity. Qed.

(* ----------------------------------------------------------------- *)
(** ** The JSON codec on collections of books *)

Section Codec.

Local Open Scope N_scope.

Lemma hex_value_digit (n : N) : n < 16 -> hex_value (hex_digit n) = Some n.
Proof.
  intros H; unfold hex_value, hex_digit.
  destruct (N.ltb_spec n 10); cmp. all: f_equal; lia.
Qed.

Lemma hex4_value_hex4 (c : N) rest :
  c < 65536 ->
  match hex4 c ++ rest with
  | h1 :: h2 :: h3 :: h4 :: r => hex4_value h1 h2 h3 h4 = Some c /\ r = rest
  | _ => False
  end.
Proof.
  intros H; unfold hex4; simpl. split; [|reflexivity].
  unfold hex4_value.
  rewrite !hex_value_digit by (apply N.mod_lt; discriminate).
  f_equal.
  zify. Z.to_euclidean_division_equations. lia.
Qed.

Lemma parse_raw (c : N) (t : jsstring) :
  c <> 34 -> c <> 92 -> 32 <= c ->
  parse_string_chars (c :: t) = cons_result c (parse_string_chars t).
Proof.
  intros H1 H2 H3; cbn [parse_string_chars].
  cmp. reflexivity.
Qed.

Lemma parse_unicode_escape (c : N) (t : jsstring) :
  c < 65536 ->
  parse_string_chars (unicode_escape c ++ t)
  = cons_result c (parse_string_chars t).
Proof.
  intros H.
  pose proof (hex4_value_hex4 c t H) as E.
  unfold unicode_escape; rewrite <- app_assoc.
  change ([92; 117] ++ hex4 c ++ t) with (92 :: 117 :: (hex4 c ++ t)).
  destruct (hex4 c ++ t) as [|h1 [|h2 [|h3 [|h4 r]]]]; try contradiction.
  destruct E as [E ->].
  cbn [parse_string_chars]. 
  change (92 =? 34) with false. change (92 =? 92) with true.
  change (117 =? 117) with true. cbv iota. rewrite E. reflexivity.
Qed.

Lemma parse_quote_code_unit (c : N) (t : jsstring) :
  is_high_surrogate c = false -> is_low_surrogate c = false ->
  parse_string_chars (quote_code_unit c ++ t)
  = cons_result c (parse_string_chars t).
Proof.
  intros Hh Hl; unfold quote_code_unit.
  destruct (N.eqb_spec c 8) as [->|]; [reflexivity|].
  destruct (N.eqb_spec c 9) as [->|]; [reflexivity|].
  destruct (N.eqb_spec c 10) as [->|]; [reflexivity|].
  destruct (N.eqb_spec c 12) as [->|]; [reflexivity|].
  destruct (N.eqb_spec c 13) as [->|]; [reflexivity|].
  destruct (N.eqb_spec c 34) as [->|]; [reflexivity|].
  destruct (N.eqb_spec c 92) as [->|]; [reflexivity|].
  destruct (N.ltb_spec c 32).
  - apply parse_unicode_escape; lia.
  - apply parse_raw; assumption.
Qed.

Lemma surrogate_is_raw (c : N) :
  is_high_surrogate c = true \/ is_low_surrogate c = true ->
  c <> 34 /\ c <> 92 /\ 32 <= c /\ c < 65536.
Proof.
  unfold is_high_surrogate, is_low_surrogate.
  rewrite !andb_true_iff, !N.leb_le; lia.
Qed.

Lemma parse_quote_chars_aux (n : nat) : forall (s r : jsstring),
  (length s <= n)%nat ->
  parse_string_chars (quote_chars s ++ 34 :: r) = Some (s, r).
Proof.
  induction n as [|n IH]; intros s r Hn.
  - destruct s; [reflexivity | simpl in Hn; lia].
  - destruct s as [|c rest]; [reflexivity|].
    simpl in Hn. cbn [quote_chars].
    destruct (is_high_surrogate c) eqn:Hh.
    + destruct (surrogate_is_raw c (or_introl Hh)) as (A & B & C & D).
      destruct rest as [|d rest'].
      * rewrite parse_unicode_escape by exact D. reflexivity.
      * destruct (is_low_surrogate d) eqn:Hd.
        -- destruct (surrogate_is_raw d (or_intror Hd)) as (A' & B' & C' & D').
           change ((c :: d :: quote_chars rest') ++ 34 :: r)
             with (c :: d :: (quote_chars rest' ++ 34 :: r)).
           rewrite (parse_raw c _ A B C), (parse_raw d _ A' B' C').
           rewrite IH by (simpl in Hn; lia). reflexivity.
        -- rewrite <- app_assoc, parse_unicode_escape by exact D.
           rewrite IH by lia. reflexivity.
    + destruct (is_low_surrogate c) eqn:Hl.
      * destruct (surrogate_is_raw c (or_intror Hl)) as (A & B & C & D).
        rewrite <- app_assoc, parse_unicode_escape by exact D.
        rewrite IH by lia. reflexivity.
      * rewrite <- app_assoc, parse_quote_code_unit by assumption.
        rewrite IH by lia. reflexivity.
Qed.

Lemma parse_quote_chars (s r : jsstring) :
  parse_string_chars (quote_chars s ++ 34 :: r) = Some (s, r).
Proof. apply (parse_quote_chars_aux (length s)); lia. Qed.

Lemma skip_ws_keeps (c : N) (t : jsstring) :
  is_json_ws c = false -> skip_ws (c :: t) = c :: t.
Proof. intros H; simpl; rewrite H; reflexivity. Qed.

Lemma parse_value_quote (f : nat) (t : jsstring) :
  parse_value (S f) (34 :: t)
  = match parse_string_chars t with
    | Some (x, r') => Some (JStr x, r')
    | None => None
    end.
Proof. reflexivity. Qed.

Lemma parse_value_string (f : nat) (s r : jsstring) :
  parse_value (S f) (QuoteJSONString s ++ r) = Some (JStr s, r).
Proof.
  unfold QuoteJSONString; norm.
  rewrite parse_value_quote, parse_quote_chars; reflexivity.
Qed.

Lemma parse_members_quote (f : nat) (t : jsstring) :
  parse_members (S f) (34 :: t)
  = match parse_string_chars t with
    | None => None
    | Some (k, r1) =>
        match skip_ws r1 with
        | [] => None
        | c1 :: r2 =>
            if c1 =? 58 then
              match parse_value f r2 with
              | None => None
              | Some (v, r3) =>
                  match skip_ws r3 with
                  | [] => None
                  | c3 :: r4 =>
                      if c3 =? 44 then
                        match parse_members f r4 with
                        | Some (ms, r5) => Some ((k, v) :: ms, r5)
                        | None => None
                        end
                      else if c3 =? 125 then Some ([(k, v)], r4)
                      else None
                  end
              end
            else None
        end
    end.
Proof. reflexivity. Qed.

(* one member, followed by [tail] *)
Lemma parse_member_step (f : nat) (kv : jsstring * jsstring) (tail : jsstring) :
  parse_members (S (S f)) (member_text kv ++ tail)
  = match skip_ws tail with
    | [] => None
    | c3 :: r4 =>
        if c3 =? 44 then
          match parse_members (S f) r4 with
          | Some (ms, r5) => Some (string_member kv :: ms, r5)
          | None => None
          end
        else if c3 =? 125 then Some ([string_member kv], r4)
        else None
    end.
Proof.
  unfold member_text; norm.
  unfold QuoteJSONString at 1; norm.
  rewrite parse_members_quote, parse_quote_chars.
  rewrite skip_ws_keeps by reflexivity.
  change (58 =? 58) with true; cbv iota.
  rewrite parse_value_string.
  reflexivity.
Qed.

Lemma parse_members_strings (props : list (jsstring * jsstring)) :
  props <> [] ->
  forall (f : nat) (r : jsstring),
  (length props < f)%nat ->
  parse_members f (join [44] (map member_text props) ++ 125 :: r)
  = Some (map string_member props, r).
Proof.
  induction props as [|kv props IH]; intros Hne f r Hf; [congruence|].
  destruct f as [|[|f]]; try (simpl in Hf; lia).
  destruct props as [|kv2 props].
  - cbn [map join]. rewrite parse_member_step.
    rewrite skip_ws_keeps by reflexivity. reflexivity.
  - change (join [44] (map member_text (kv :: kv2 :: props)))
      with (member_text kv ++ [44] ++ join [44] (map member_text (kv2 :: props))).
    rewrite <- app_assoc, parse_member_step; norm.
    rewrite skip_ws_keeps by reflexivity.
    change (44 =? 44) with true; cbv iota.
    rewrite IH; [reflexivity | discriminate | simpl in *; lia].
Qed.

Lemma js_of_book_fields (b : Book) :
  js_of_book b = JObj (map string_member (book_fields b)).
Proof. reflexivity. Qed.

Lemma stringify_book (b : Book) :
  JSON_stringify (js_of_book b)
  = 123 :: join [44] (map member_text (book_fields b)) ++ [125].
Proof. reflexivity. Qed.

Lemma members_start_with_quote (kv : jsstring * jsstring)
    (props : list (jsstring * jsstring)) :
  exists t, join [44] (map member_text (kv :: props)) = 34 :: t.
Proof.
  destruct props; cbn [map join]; unfold member_text, QuoteJSONString; norm;
    eexists; reflexivity.
Qed.

Lemma parse_value_brace (f : nat) (t : jsstring) :
  parse_value (S f) (123 :: 34 :: t)
  = match parse_members f (34 :: t) with
    | Some (ms, r'') => Some (JObj (object_of_members ms), r'')
    | None => None
    end.
Proof. reflexivity. Qed.

Lemma object_of_book_members (b : Book) :
  object_of_members (map string_member (book_fields b))
  = map string_member (book_fields b).
Proof. reflexivity. Qed.

Lemma parse_value_book (b : Book) (f : nat) (r : jsstring) :
  (9 <= f)%nat ->
  parse_value f (JSON_stringify (js_of_book b) ++ r) = Some (js_of_book b, r).
Proof.
  intros Hf. destruct f as [|f]; [lia|].
  rewrite stringify_book; norm.
  destruct (members_start_with_quote (hd (str "", []) (book_fields b))
              (tl (book_fields b))) as [t E].
  change (hd (str "", []) (book_fields b) :: tl (book_fields b))
    with (book_fields b) in E.
  assert (P : parse_members f (join [44] (map member_text (book_fields b)) ++ 125 :: r)
              = Some (map string_member (book_fields b), r)).
  { apply parse_members_strings; [discriminate | simpl; lia]. }
  revert P. rewrite E; norm. intros P.
  rewrite parse_value_brace, P, object_of_book_members.
  reflexivity.
Qed.

Lemma book_text_starts_with_brace (b : Book) :
  exists t, JSON_stringify (js_of_book b) = 123 :: t.
Proof. rewrite stringify_book; eexists; reflexivity. Qed.

Lemma join_length (sep : jsstring) (parts : list jsstring) (m : nat) :
  (forall p, In p parts -> (m <= length p)%nat) ->
  (m * length parts <= length (join sep parts))%nat.
Proof.
  induction parts as [|p [|p2 parts] IH]; intros H.
  - simpl; lia.
  - specialize (H p (or_introl eq_refl)). simpl; lia.
  - assert (Hp := H p (or_introl eq_refl)).
    assert (IH' : Nat.le (m * length (p2 :: parts)) (length (join sep (p2 :: parts))))
      by (apply IH; intros x Hx; apply H; right; exact Hx).
    change (join sep (p :: p2 :: parts)) with (p ++ sep ++ join sep (p2 :: parts)).
    rewrite !length_app.
    change (length (p :: p2 :: parts)) with (S (length (p2 :: parts))).
    lia.
Qed.

Lemma member_text_length (kv : jsstring * jsstring) :
  (5 <= length (member_text kv))%nat.
Proof.
  unfold member_text, QuoteJSONString.
  rewrite !length_app; simpl; lia.
Qed.

Lemma book_text_length (b : Book) :
  (10 <= length (JSON_stringify (js_of_book b)))%nat.
Proof.
  rewrite stringify_book.
  change (length (123 :: join [44] (map member_text (book_fields b)) ++ [125]))
    with (S (length (join [44] (map member_text (book_fields b)) ++ [125]))).
  rewrite length_app.
  pose proof (join_length [44] (map member_text (book_fields b)) 5) as H.
  rewrite length_map in H.
  change (length (book_fields b)) with 7%nat in H.
  assert (Nat.le 35 (length (join [44] (map member_text (book_fields b))))).
  { apply H. intros p Hp. apply in_map_iff in Hp.
    destruct Hp as (kv & <- & _). apply member_text_length. }
  lia.
Qed.

Lemma parse_elements_step (f : nat) (s : jsstring) :
  parse_elements (S f) s
  = match parse_value f s with
    | None => None
    | Some (v, r) =>
        match skip_ws r with
        | [] => None
        | c :: r' =>
            if c =? 44 then
              match parse_elements f r' with
              | Some (vs, r'') => Some (v :: vs, r'')
              | None => None
              end
            else if c =? 93 then Some ([v], r')
            else None
        end
    end.
Proof. reflexivity. Qed.

Lemma parse_elements_books (bs : list Book) :
  bs <> [] ->
  forall (f : nat) (r : jsstring),
  (length bs + 9 <= f)%nat ->
  parse_elements f (join [44] (map book_text bs) ++ 93 :: r)
  = Some (map js_of_book bs, r).
Proof.
  induction bs as [|b bs IH]; intros Hne f r Hf; [congruence|].
  destruct f as [|f]; [simpl in Hf; lia|].
  rewrite parse_elements_step.
  destruct bs as [|b2 bs].
  - cbn [map join]. unfold book_text.
    rewrite parse_value_book by (simpl in Hf; lia).
    rewrite skip_ws_keeps by reflexivity. reflexivity.
  - change (join [44] (map book_text (b :: b2 :: bs)))
      with (book_text b ++ [44] ++ join [44] (map book_text (b2 :: bs))).
    rewrite <- app_assoc. unfold book_text at 1.
    rewrite parse_value_book by (simpl in Hf; lia). norm.
    rewrite skip_ws_keeps by reflexivity.
    change (44 =? 44) with true; cbv iota.
    rewrite IH; [reflexivity | discriminate | simpl in *; lia].
Qed.

Lemma parse_value_bracket (f : nat) (t : jsstring) :
  parse_value (S f) (91 :: 123 :: t)
  = match parse_elements f (123 :: t) with
    | Some (xs, r'') => Some (JArr xs, r'')
    | None => None
    end.
Proof. reflexivity. Qed.

Lemma stringify_books (bs : list Book) :
  JSON_stringify (JArr (map js_of_book bs))
  = 91 :: join [44] (map book_text bs) ++ [93].
Proof.
  cbn [JSON_stringify]. rewrite map_map. reflexivity.
Qed.

Lemma books_start_with_brace (b : Book) (bs : list Book) :
  exists t, join [44] (map book_text (b :: bs)) = 123 :: t.
Proof.
  destruct (book_text_starts_with_brace b) as [t E].
  destruct bs; cbn [map join]; unfold book_text at 1; rewrite E;
    eexists; reflexivity.
Qed.

Theorem JSON_parse_stringify_books (bs : list Book) :
  JSON_parse (JSON_stringify (JArr (map js_of_book bs)))
  = Normal (JArr (map js_of_book bs)).
Proof.
  destruct bs as [|b bs]; [reflexivity|].
  unfold JSON_parse, parse_fuel.
  rewrite stringify_books.
  assert (L : Nat.le (10 * length (b :: bs)) (length (join [44] (map book_text (b :: bs))))).
  { rewrite <- (length_map book_text (b :: bs)).
    apply join_length. intros p Hp. apply in_map_iff in Hp.
    destruct Hp as (x & <- & _). apply book_text_length. }
  assert (P : forall f, (length (b :: bs) + 9 <= f)%nat ->
            parse_elements f (join [44] (map book_text (b :: bs)) ++ 93 :: [])
            = Some (map js_of_book (b :: bs), [])).
  { intros f Hf; apply parse_elements_books; [discriminate | exact Hf]. }
  destruct (books_start_with_brace b bs) as [t E].
  revert L P; rewrite E; intros L P.
  change (91 :: (123 :: t) ++ [93]) with (91 :: 123 :: (t ++ [93])).
  set (text := 91 :: 123 :: (t ++ [93])).
  assert (F : exists f', (2 * length text + 2)%nat = S f'
                         /\ (length (b :: bs) + 9 <= f')%nat).
  { exists (2 * length text + 1)%nat; split; [lia|].
    subst text; cbn [length] in *; rewrite length_app; lia. }
  destruct F as (f' & -> & Hf').
  subst text; rewrite parse_value_bracket.
  change (123 :: t ++ [93]) with ((123 :: t) ++ [93]).
  rewrite (P f' Hf').
  reflexivity.
Qed.

End Codec.

(** *** The fuel of the parser *)

Lemma skip_ws_length (s : jsstring) : length (skip_ws s) <= length s.
Proof.
  induction s as [|c s IH]; simpl; [lia|].
  destruct (is_json_ws c); simpl; lia.
Qed.

Lemma skip_ws_cons_length (s r : jsstring) (c : N) :
  skip_ws s = c :: r -> length r < length s.
Proof.
  intros H; pose proof (skip_ws_length s) as L; rewrite H in L; simpl in L; lia.
Qed.

Lemma parse_string_chars_length_aux (n : nat) : forall s x r,
  length s <= n -> parse_string_chars s = Some (x, r) -> length r < length s.
Proof.
  induction n as [|n IH]; intros s x r Hn H.
  - destruct s; [discriminate | simpl in Hn; lia].
  - destruct s as [|c s]; [discriminate|].
    cbn [parse_string_chars] in H. simpl in Hn.
    destruct (N.eqb c 34); [inversion H; subst; simpl; lia|].
    destruct (N.eqb c 92).
    + destruct s as [|e r1]; [discriminate|].
      destruct (N.eqb e 117).
      * destruct r1 as [|h1 [|h2 [|h3 [|h4 r2]]]]; try discriminate.
        destruct (hex4_value h1 h2 h3 h4); [|discriminate].
        destruct (parse_string_chars r2) as [[cs r3]|] eqn:E; [|discriminate].
        inversion H; subst.
        apply IH in E; simpl in *; lia.
      * destruct (unescape e); [|discriminate].
        destruct (parse_string_chars r1) as [[cs r3]|] eqn:E; [|discriminate].
        inversion H; subst.
        apply IH in E; simpl in *; lia.
    + destruct (N.ltb c 32); [discriminate|].
      destruct (parse_string_chars s) as [[cs r3]|] eqn:E; [|discriminate].
      inversion H; subst.
      apply IH in E; simpl in *; lia.
Qed.

Lemma parse_string_chars_length (s x r : jsstring) :
  parse_string_chars s = Some (x, r) -> length r < length s.
Proof. apply (parse_string_chars_length_aux (length s)); lia. Qed.

Lemma span_digits_length (s ds r : jsstring) :
  span_digits s = (ds, r) -> length r <= length s.
Proof.
  revert ds r; induction s as [|c s IH]; intros ds r H; simpl in H.
  - inversion H; simpl; lia.
  - destruct (is_digit c).
    + destruct (span_digits s) as [ds' r'] eqn:E. inversion H; subst.
      specialize (IH _ _ eq_refl); simpl; lia.
    + inversion H; subst; simpl; lia.
Qed.

Lemma strip_prefix_length (p s r : jsstring) :
  strip_prefix p s = Some r -> length r + length p = length s.
Proof.
  revert s r; induction p as [|x p IH]; intros s r H; simpl in H.
  - inversion H; simpl; lia.
  - destruct s as [|y s]; [discriminate|].
    destruct (N.eqb x y); [|discriminate].
    apply IH in H; simpl; lia.
Qed.

Lemma parse_literal_length (lit : jsstring) (v v' : jsval) (s r : jsstring) :
  lit <> [] -> parse_literal lit v s = Some (v', r) -> length r < length s.
Proof.
  intros Hl H; unfold parse_literal in H.
  destruct (strip_prefix lit s) eqn:E; [|discriminate].
  inversion H; subst. apply strip_prefix_length in E.
  destruct lit; [congruence | simpl in E; lia].
Qed.

Lemma number_sign_length (s sign r : jsstring) :
  number_sign s = (sign, r) -> length r <= length s.
Proof.
  destruct s as [|c s]; simpl; intros H; [inversion H; simpl; lia|].
  destruct (N.eqb c 45); inversion H; simpl; lia.
Qed.

Lemma number_int_length (s x r : jsstring) :
  number_int s = Some (x, r) -> length r < length s.
Proof.
  destruct s as [|c s]; simpl; intros H; [discriminate|].
  destruct (N.eqb c 48); [inversion H; simpl; lia|].
  destruct (is_digit c); [|discriminate].
  destruct (span_digits s) as [ds r'] eqn:E.
  apply span_digits_length in E. inversion H; subst; lia.
Qed.

Lemma number_frac_length (s x r : jsstring) :
  number_frac s = Some (x, r) -> length r <= length s.
Proof.
  destruct s as [|c s]; simpl; intros H; [inversion H; simpl; lia|].
  destruct (N.eqb c 46); [|inversion H; simpl; lia].
  destruct (span_digits s) as [[|d ds] r'] eqn:E; [discriminate|].
  apply span_digits_length in E. inversion H; subst; lia.
Qed.

Lemma exponent_sign_length (s sg r : jsstring) :
  exponent_sign s = (sg, r) -> length r <= length s.
Proof.
  destruct s as [|c s]; simpl; intros H; [inversion H; simpl; lia|].
  destruct (N.eqb c 43 || N.eqb c 45)%bool; inversion H; simpl; lia.
Qed.

Lemma number_exp_length (s x r : jsstring) :
  number_exp s = Some (x, r) -> length r <= length s.
Proof.
  destruct s as [|c s]; simpl; intros H; [inversion H; simpl; lia|].
  destruct (N.eqb c 101 || N.eqb c 69)%bool; [|inversion H; simpl; lia].
  destruct (exponent_sign s) as [sg r1] eqn:E1.
  apply exponent_sign_length in E1.
  destruct (span_digits r1) as [[|d ds] r2] eqn:E; [discriminate|].
  apply span_digits_length in E. inversion H; subst; lia.
Qed.

Lemma parse_number_length (s x r : jsstring) :
  parse_number s = Some (x, r) -> length r < length s.
Proof.
  unfold parse_number; intros H.
  destruct (number_sign s) as [sign s1] eqn:E1.
  destruct (number_int s1) as [[int s2]|] eqn:E2; [|discriminate].
  destruct (number_frac s2) as [[frac s3]|] eqn:E3; [|discriminate].
  destruct (number_exp s3) as [[ex s4]|] eqn:E4; [|discriminate].
  inversion H; subst.
  apply number_sign_length in E1. apply number_int_length in E2.
  apply number_frac_length in E3. apply number_exp_length in E4. lia.
Qed.

Lemma parse_fuel_bound (f : nat) :
  (forall s v r, parse_value f s = Some (v, r) -> enough_value s v r)
  /\ (forall s vs r, parse_elements f s = Some (vs, r) -> enough_elements s vs r)
  /\ (forall s ms r, parse_members f s = Some (ms, r) -> enough_members s ms r).
Proof.
  induction f as [|f (IHv & IHe & IHm)]; [repeat split; discriminate|].
  split; [|split].
  - intros s v r H. cbn [parse_value] in H.
    destruct (skip_ws s) as [|c r0] eqn:Ews; [discriminate|].
    pose proof (skip_ws_cons_length s r0 c Ews) as L0.
    destruct (N.eqb c 34) eqn:E34.
    { destruct (parse_string_chars r0) as [[x r']|] eqn:Es; [|discriminate].
      inversion H; subst.
      pose proof (parse_string_chars_length _ _ _ Es).
      split; [lia|]. intros [|f'] Hf; [lia|].
      cbn [parse_value]. rewrite Ews, E34, Es. reflexivity. }
    destruct (N.eqb c 91) eqn:E91.
    { destruct (skip_ws r0) as [|d r'] eqn:Ews2; [discriminate|].
      pose proof (skip_ws_cons_length r0 r' d Ews2).
      destruct (N.eqb d 93) eqn:E93.
      - inversion H; subst.
        split; [lia|]. intros [|f'] Hf; [lia|].
        cbn [parse_value]. rewrite Ews, E34, E91, Ews2, E93. reflexivity.
      - destruct (parse_elements f r0) as [[xs r'']|] eqn:Ee; [|discriminate].
        inversion H; subst.
        destruct (IHe _ _ _ Ee) as [Le He].
        split; [lia|]. intros [|f'] Hf; [lia|].
        cbn [parse_value]. rewrite Ews, E34, E91, Ews2, E93.
        rewrite (He f') by lia. reflexivity. }
    destruct (N.eqb c 123) eqn:E123.
    { destruct (skip_ws r0) as [|d r'] eqn:Ews2; [discriminate|].
      pose proof (skip_ws_cons_length r0 r' d Ews2).
      destruct (N.eqb d 125) eqn:E125.
      - inversion H; subst.
        split; [lia|]. intros [|f'] Hf; [lia|].
        cbn [parse_value]. rewrite Ews, E34, E91, E123, Ews2, E125. reflexivity.
      - destruct (parse_members f r0) as [[xs r'']|] eqn:Ee; [|discriminate].
        inversion H; subst.
        destruct (IHm _ _ _ Ee) as [Le He].
        split; [lia|]. intros [|f'] Hf; [lia|].
        cbn [parse_value]. rewrite Ews, E34, E91, E123, Ews2, E125.
        rewrite (He f') by lia. reflexivity. }
    assert (L : length (c :: r0) <= length s)
      by (rewrite <- Ews; apply skip_ws_length).
    destruct (N.eqb c 116) eqn:E116.
    { assert (Hl := H); apply parse_literal_length in Hl;
        [|intro X; vm_compute in X; discriminate X].
      split; [lia|]. intros [|f'] Hf; [lia|].
      cbn [parse_value]. rewrite Ews, E34, E91, E123, E116. exact H. }
    destruct (N.eqb c 102) eqn:E102.
    { assert (Hl := H); apply parse_literal_length in Hl;
        [|intro X; vm_compute in X; discriminate X].
      split; [lia|]. intros [|f'] Hf; [lia|].
      cbn [parse_value]. rewrite Ews, E34, E91, E123, E116, E102. exact H. }
    destruct (N.eqb c 110) eqn:E110.
    { assert (Hl := H); apply parse_literal_length in Hl;
        [|intro X; vm_compute in X; discriminate X].
      split; [lia|]. intros [|f'] Hf; [lia|].
      cbn [parse_value]. rewrite Ews, E34, E91, E123, E116, E102, E110. exact H. }
    destruct (parse_number (c :: r0)) as [[lexeme r']|] eqn:En; [|discriminate].
    inversion H; subst.
    pose proof (parse_number_length _ _ _ En).
    split; [lia|]. intros [|f'] Hf; [lia|].
    cbn [parse_value]. rewrite Ews, E34, E91, E123, E116, E102, E110, En.
    reflexivity.
  - intros s vs r H. cbn [parse_elements] in H.
    destruct (parse_value f s) as [[v r1]|] eqn:Ev; [|discriminate].
    destruct (IHv _ _ _ Ev) as [Lv Hv].
    destruct (skip_ws r1) as [|c r2] eqn:Ews; [discriminate|].
    pose proof (skip_ws_cons_length r1 r2 c Ews).
    destruct (N.eqb c 44) eqn:E44.
    + destruct (parse_elements f r2) as [[vs' r3]|] eqn:Ee; [|discriminate].
      inversion H; subst.
      destruct (IHe _ _ _ Ee) as [Le He].
      split; [lia|]. intros [|f'] Hf; [lia|].
      cbn [parse_elements]. rewrite (Hv f') by lia. rewrite Ews, E44.
      rewrite (He f') by lia. reflexivity.
    + destruct (N.eqb c 93) eqn:E93; [|discriminate].
      inversion H; subst.
      split; [lia|]. intros [|f'] Hf; [lia|].
      cbn [parse_elements]. rewrite (Hv f') by lia. rewrite Ews, E44, E93.
      reflexivity.
  - intros s ms r H. cbn [parse_members] in H.
    destruct (skip_ws s) as [|c r0] eqn:Ews; [discriminate|].
    pose proof (skip_ws_cons_length s r0 c Ews) as L0.
    destruct (N.eqb c 34) eqn:E34; [|discriminate].
    destruct (parse_string_chars r0) as [[k r1]|] eqn:Es; [|discriminate].
    pose proof (parse_string_chars_length _ _ _ Es).
    destruct (skip_ws r1) as [|c1 r2] eqn:Ews1; [discriminate|].
    pose proof (skip_ws_cons_length r1 r2 c1 Ews1).
    destruct (N.eqb c1 58) eqn:E58; [|discriminate].
    destruct (parse_value f r2) as [[v r3]|] eqn:Ev; [|discriminate].
    destruct (IHv _ _ _ Ev) as [Lv Hv].
    destruct (skip_ws r3) as [|c3 r4] eqn:Ews3; [discriminate|].
    pose proof (skip_ws_cons_length r3 r4 c3 Ews3).
    destruct (N.eqb c3 44) eqn:E44.
    + destruct (parse_members f r4) as [[ms' r5]|] eqn:Em; [|discriminate].
      inversion H; subst.
      destruct (IHm _ _ _ Em) as [Lm Hm].
      split; [lia|]. intros [|f'] Hf; [lia|].
      cbn [parse_members]. rewrite Ews, E34, Es, Ews1, E58.
      rewrite (Hv f') by lia. rewrite Ews3, E44.
      rewrite (Hm f') by lia. reflexivity.
    + destruct (N.eqb c3 125) eqn:E125; [|discriminate].
      inversion H; subst.
      split; [lia|]. intros [|f'] Hf; [lia|].
      cbn [parse_members]. rewrite Ews, E34, Es, Ews1, E58.
      rewrite (Hv f') by lia. rewrite Ews3, E44, E125. reflexivity.
Qed.

(** The fuel of [JSON_parse] is never what makes a parse fail. *)
Theorem parse_fuel_enough (s : jsstring) (f : nat) (v : jsval) (r : jsstring) :
  parse_value f s = Some (v, r) ->
  parse_value (parse_fuel s) s = Some (v, r).
Proof.
  intros H. destruct (parse_fuel_bound f) as (Hv & _ & _).
  destruct (Hv s v r H) as [L E].
  apply E. unfold parse_fuel. lia.
Qed.

(* ----------------------------------------------------------------- *)
(** ** Loading and saving *)

Lemma status_of_status_string (s : BookStatus) :
  status_of_string (status_string s) = Some s.
Proof. destruct s; reflexivity. Qed.

Lemma book_of_js_of_book (b : Book) : book_of_js (js_of_book b) = Some b.
Proof.
  destruct b as [i t a p d th s]; unfold js_of_book, book_of_js.
  cbn [id title author publishedDate description thumbnail status].
  rewrite !jsstring_eqb_refl; cbn [andb].
  rewrite status_of_status_string; reflexivity.
Qed.

Lemma status_string_eqb (a b : BookStatus) :
  jsstring_eqb (status_string a) (status_string b) = BookStatus_eqb a b.
Proof. destruct a, b; reflexivity. Qed.

Lemma get_status_of_book (b : Book) :
  get_status (js_of_book b) = Normal (Some (JStr (status_string (status b)))).
Proof. reflexivity. Qed.

(** On the images of typed books the untyped filter is the typed one. *)
Lemma filter_by_status_books (s : BookStatus) (bs : list Book) :
  filter_by_status (status_string s) (map js_of_book bs)
  = Normal (map js_of_book
              (filter (fun b => BookStatus_eqb (status b) s) bs)).
Proof.
  induction bs as [|b bs IH]; [reflexivity|].
  cbn [map filter_by_status filter].
  rewrite get_status_of_book, IH.
  cbn [strict_equals_string]; rewrite status_string_eqb.
  destruct (BookStatus_eqb (status b) s); reflexivity.
Qed.

Lemma computeDerivedArrays_js_books (bs : list Book) :
  computeDerivedArrays_js (map js_of_book bs)
  = Normal
      {| d_currentlyReading :=
           map js_of_book (d_currentlyReading (computeDerivedArrays bs));
         d_wantToRead :=
           map js_of_book (d_wantToRead (computeDerivedArrays bs));
         d_haveRead :=
           map js_of_book (d_haveRead (computeDerivedArrays bs)) |}.
Proof.
  unfold computeDerivedArrays_js.
  change (str "currently-reading") with (status_string currently_reading).
  change (str "want-to-read") with (status_string want_to_read).
  change (str "have-read") with (status_string have_read).
  rewrite !filter_by_status_books; reflexivity.
Qed.

Lemma storage_get_put (k v : jsstring) (es : list (jsstring * jsstring)) :
  storage_get k (storage_put k v es) = Some v.
Proof. unfold storage_put; simpl; rewrite jsstring_eqb_refl; reflexivity. Qed.

Lemma stringify_array_truthy (items : list jsval) :
  truthy (JSON_stringify (JArr items)) = true.
Proof. reflexivity. Qed.

(** What [loadInitialState] does with a slot that holds the text of an
    array of books. *)
Lemma load_stored_books (bs : list Book) (w : World) :
  storage_get STORAGE_KEY (entries (localStorage w))
  = Some (JSON_stringify (JArr (map js_of_book bs))) ->
  loadInitialState w
  = (Normal (js_of_state
               (bookCollectionReducer initialState (LOAD_FROM_STORAGE bs))),
     w).
Proof.
  intros H.
  unfold loadInitialState, loadInitialState_try, try_catch, bind,
    localStorage_getItem, lift, ret.
  rewrite H, stringify_array_truthy, JSON_parse_stringify_books.
  rewrite computeDerivedArrays_js_books.
  reflexivity.
Qed.

(** C4.  When the storage has room for the write, saving the [books] of a
    state and loading the slot again gives back the same sequence: the
    loader returns, without a diagnostic, the state whose [books] are the
    saved records, field for field and in their order, with the derived
    arrays computed from them. *)
Theorem load_after_save_is_identity (state : BookCollectionState Book)
    (w : World) :
  storage_fits (localStorage w) STORAGE_KEY
    (JSON_stringify (JArr (map js_of_book (books state)))) = true ->
  let saved := snd (saveBooks state w) in
  exists loaded,
    loadInitialState saved = (Normal loaded, saved)
    /\ books loaded = map js_of_book (books state)
    /\ map book_of_js (books loaded) = map Some (books state)
    /\ loaded = js_of_state
                  (bookCollectionReducer initialState
                     (LOAD_FROM_STORAGE (books state)))
    /\ console saved = console w.
Proof.
  intros Hfit saved.
  assert (S : saved
              = {| localStorage :=
                     {| entries :=
                          storage_put STORAGE_KEY
                            (JSON_stringify (JArr (map js_of_book (books state))))
                            (entries (localStorage w));
                        quota := quota (localStorage w) |};
                   console := console w;
                   dispatched := dispatched w;
                   requests := requests w |}).
  { subst saved; unfold saveBooks, try_catch, localStorage_setItem.
    rewrite Hfit; reflexivity. }
  exists (js_of_state
            (bookCollectionReducer initialState (LOAD_FROM_STORAGE (books state)))).
  split; [|split; [|split; [|split]]].
  - apply load_stored_books.
    rewrite S; cbn [localStorage entries]; apply storage_get_put.
  - reflexivity.
  - cbn [js_of_state books bookCollectionReducer with_books].
    rewrite map_map.
    apply map_ext; intros b; apply book_of_js_of_book.
  - reflexivity.
  - rewrite S; reflexivity.
Qed.

Lemma load_after_save_is_identity_witness :
  let state :=
    bookCollectionReducer initialState (LOAD_FROM_STORAGE [dune; emma]) in
  let w := quiet (mkStorage [] (Some 1000)) in
  storage_fits (localStorage w) STORAGE_KEY
    (JSON_stringify (JArr (map js_of_book (books state)))) = true
  /\ exists loaded,
       loadInitialState (snd (saveBooks state w))
       = (Normal loaded, snd (saveBooks state w))
       /\ books loaded = map js_of_book (books state)
       /\ map book_of_js (books loaded) = map Some (books state)
       /\ loaded = js_of_state
                     (bookCollectionReducer initialState
                        (LOAD_FROM_STORAGE (books state)))
       /\ console (snd (saveBooks state w)) = console w.
Proof.
  intros state w.
  assert (H : storage_fits (localStorage w) STORAGE_KEY
                (JSON_stringify (JArr (map js_of_book (books state)))) = true)
    by (vm_compute; reflexivity).
  split; [exact H|].
  exact (load_after_save_is_identity state w H).
Defined.

Lemma JSON_parse_empty : JSON_parse [] = Throw SyntaxError.
Proof. reflexivity. Qed.

(** C5, as the code has it.  [loadInitialState] returns for every content of
    the storage, it never throws.  An absent key and an empty stored string
    give the initial state without a diagnostic.  A stored text that fails
    to parse gives the initial state and one diagnostic.  A text that parses
    to something other than an array gives the initial state and no
    diagnostic.  An array gives the state with that array as [books], except
    that an array with a [null] element, on which the filters throw, gives
    the initial state and one diagnostic. *)
Theorem load_never_throws (w : World) :
  let slot := storage_get STORAGE_KEY (entries (localStorage w)) in
  let label := str "Failed to load books from localStorage:" in
  (exists state w', loadInitialState w = (Normal state, w'))
  /\ (slot = None \/ slot = Some [] ->
      loadInitialState w = (Normal initialState, w))
  /\ (forall text e,
        slot = Some text -> text <> [] -> JSON_parse text = Throw e ->
        loadInitialState w = (Normal initialState, logged label e w))
  /\ (forall text v,
        slot = Some text -> JSON_parse text = Normal v ->
        (forall bs, v <> JArr bs) ->
        loadInitialState w = (Normal initialState, w))
  /\ (forall text bs d,
        slot = Some text -> JSON_parse text = Normal (JArr bs) ->
        computeDerivedArrays_js bs = Normal d ->
        loadInitialState w
        = (Normal {| books := bs;
                     searchResults := [];
                     isLoading := false;
                     error := None;
                     currentlyReading := d_currentlyReading d;
                     wantToRead := d_wantToRead d;
                     haveRead := d_haveRead d |},
           w))
  /\ (forall text bs e,
        slot = Some text -> JSON_parse text = Normal (JArr bs) ->
        computeDerivedArrays_js bs = Throw e ->
        loadInitialState w = (Normal initialState, logged label e w)).
Proof.
  intros slot label.
  assert (U : loadInitialState w
              = match slot with
                | None => (Normal initialState, w)
                | Some [] => (Normal initialState, w)
                | Some (c :: t) =>
                    match JSON_parse (c :: t) with
                    | Throw e => (Normal initialState, logged label e w)
                    | Normal (JArr bs) =>
                        match computeDerivedArrays_js bs with
                        | Throw e => (Normal initialState, logged label e w)
                        | Normal d =>
                            (Normal {| books := bs;
                                       searchResults := [];
                                       isLoading := false;
                                       error := None;
                                       currentlyReading := d_currentlyReading d;
                                       wantToRead := d_wantToRead d;
                                       haveRead := d_haveRead d |},
                             w)
                        end
                    | Normal _ => (Normal initialState, w)
                    end
                end).
  { unfold loadInitialState, loadInitialState_try, try_catch, bind,
      localStorage_getItem, lift, ret, console_error, logged.
    fold slot.
    destruct slot as [[|c t]|]; try reflexivity.
    cbn [truthy].
    destruct (JSON_parse (c :: t)) as [[| | | |bs|]|e]; try reflexivity.
    destruct (computeDerivedArrays_js bs); reflexivity. }
  split; [|split; [|split; [|split; [|split]]]].
  - rewrite U.
    destruct slot as [[|c t]|]; try (eexists; eexists; reflexivity).
    destruct (JSON_parse (c :: t)) as [[| | | |bs|]|e];
      try (eexists; eexists; reflexivity).
    destruct (computeDerivedArrays_js bs); eexists; eexists; reflexivity.
  - rewrite U; intros [-> | ->]; reflexivity.
  - rewrite U; intros text e -> Hne Hp.
    destruct text as [|c t]; [congruence|].
    rewrite Hp; reflexivity.
  - rewrite U; intros text v -> Hp Hv.
    destruct text as [|c t]; [reflexivity|].
    rewrite Hp.
    destruct v as [| | | |bs|]; try reflexivity.
    exfalso; exact (Hv bs eq_refl).
  - rewrite U; intros text bs d -> Hp Hd.
    destruct text as [|c t]; [rewrite JSON_parse_empty in Hp; discriminate|].
    rewrite Hp, Hd; reflexivity.
  - rewrite U; intros text bs e -> Hp Hd.
    destruct text as [|c t]; [rewrite JSON_parse_empty in Hp; discriminate|].
    rewrite Hp, Hd; reflexivity.
Qed.

(** C5 as the specification words it fails on a stored text that parses but
    not to an array: for the text of an empty object the loader returns the
    initial state and logs nothing. *)
Lemma load_non_array_logs_nothing :
  let w := quiet (storage_with (str "{}")) in
  JSON_parse (str "{}") = Normal (JObj [])
  /\ fst (loadInitialState w) = Normal initialState
  /\ console (snd (loadInitialState w)) = [].
Proof. vm_compute; repeat split. Qed.

Example load_invalid_json :
  let w := quiet (storage_with (str "invalid json")) in
  fst (loadInitialState w) = Normal initialState
  /\ console (snd (loadInitialState w))
     = [(str "Failed to load books from localStorage:", SyntaxError)].
Proof. vm_compute; repeat split. Qed.

Example load_array_with_null :
  let w := quiet (storage_with (str "[null]")) in
  fst (loadInitialState w) = Normal initialState
  /\ console (snd (loadInitialState w))
     = [(str "Failed to load books from localStorage:", TypeError)].
Proof. vm_compute; repeat split. Qed.

(* ================================================================= *)
(** * Further properties of the code *)

(** ** The reducer *)

Lemma NoDup_map_filter {A B : Type} (g : A -> B) (f : A -> bool) (l : list A) :
  NoDup (map g l) -> NoDup (map g (filter f l)).
Proof.
  induction l as [|x l IH]; simpl; intros H; [constructor|].
  inversion H as [|y ys Hx Hl]; subst.
  destruct (f x); simpl; [|auto].
  constructor; [|auto].
  intros Hin; apply Hx.
  apply in_map_iff in Hin; destruct Hin as (z & Ez & Hz).
  apply filter_In in Hz; destruct Hz as [Hz _].
  rewrite <- Ez; apply in_map; exact Hz.
Qed.

Lemma id_not_in_filtered (i : jsstring) (bs : list Book) :
  ~ In i (map id (filter (fun book => negb (jsstring_eqb (id book) i)) bs)).
Proof.
  intros Hin; apply in_map_iff in Hin; destruct Hin as (x & Ex & Hx).
  apply filter_In in Hx; destruct Hx as [_ Hx].
  apply negb_true_iff, jsstring_eqb_neq in Hx; congruence.
Qed.

Lemma update_keeps_ids (i : jsstring) (s : BookStatus) (bs : list Book) :
  map id (map (fun book => if jsstring_eqb (id book) i
                           then set_status book s else book) bs)
  = map id bs.
Proof.
  rewrite map_map; apply map_ext; intros x.
  destruct (jsstring_eqb (id x) i); reflexivity.
Qed.

Lemma NoDup_snoc {A : Type} (x : A) (l : list A) :
  NoDup l -> ~ In x l -> NoDup (l ++ [x]).
Proof.
  induction l as [|y l IH]; simpl; intros H Hx.
  - constructor; [tauto | constructor].
  - inversion H as [|z zs Hy Hl]; subst.
    constructor; [|apply IH; tauto].
    intros Hin; apply in_app_or in Hin; simpl in Hin.
    destruct Hin as [Hin | [E | []]]; [tauto | subst; tauto].
Qed.

(** One transition keeps the ids of [books] free of repetitions. *)
Lemma reducer_keeps_ids_unique (state : BookCollectionState Book)
    (a : Action) :
  NoDup (map id (books state)) -> payload_ids_unique a ->
  NoDup (map id (books (bookCollectionReducer state a))).
Proof.
  intros H Ha; destruct a; simpl in *; try assumption.
  - rewrite map_app; simpl.
    apply NoDup_snoc; [apply NoDup_map_filter, H | apply id_not_in_filtered].
  - apply NoDup_map_filter, H.
  - rewrite update_keeps_ids; exact H.
Qed.

(** X1.  Unless a whole collection with a repeated id is loaded, no id is
    ever held twice: after any sequence of actions from the initial state in
    which every LOAD_FROM_STORAGE payload has distinct ids, the ids of
    [books] are pairwise distinct. *)
Theorem ids_stay_unique (actions : list Action) :
  Forall payload_ids_unique actions ->
  NoDup (map id (books (dispatch_all initialState actions))).
Proof.
  intros H.
  assert (G : forall state, NoDup (map id (books state)) ->
                NoDup (map id (books (dispatch_all state actions)))).
  { unfold dispatch_all.
    induction H as [|a actions Ha _ IH]; intros state Hs; simpl; [exact Hs|].
    apply IH, reducer_keeps_ids_unique; assumption. }
  apply G; simpl; constructor.
Qed.

Lemma ids_stay_unique_witness :
  Forall payload_ids_unique
    [ADD_BOOK dune; ADD_BOOK emma; ADD_BOOK dune_revised;
     LOAD_FROM_STORAGE [emma; dune]; UPDATE_BOOK_STATUS (str "2") want_to_read;
     ADD_BOOK dune_again; REMOVE_BOOK (str "2")]
  /\ NoDup (map id (books (dispatch_all initialState
       [ADD_BOOK dune; ADD_BOOK emma; ADD_BOOK dune_revised;
        LOAD_FROM_STORAGE [emma; dune]; UPDATE_BOOK_STATUS (str "2") want_to_read;
        ADD_BOOK dune_again; REMOVE_BOOK (str "2")]))).
Proof.
  assert (H : Forall payload_ids_unique
    [ADD_BOOK dune; ADD_BOOK emma; ADD_BOOK dune_revised;
     LOAD_FROM_STORAGE [emma; dune]; UPDATE_BOOK_STATUS (str "2") want_to_read;
     ADD_BOOK dune_again; REMOVE_BOOK (str "2")]).
  { repeat constructor; simpl; try tauto; intros [E | []]; discriminate E. }
  split; [exact H | exact (ids_stay_unique _ H)].
Defined.

Lemma isInCollection_iff (bs : list Book) (i : jsstring) :
  SearchPage.isInCollection bs i = true <-> In i (map id bs).
Proof.
  unfold SearchPage.isInCollection; rewrite existsb_exists, in_map_iff.
  split; intros (x & H1 & H2).
  - exists x; split; [apply jsstring_eqb_eq; exact H2 | exact H1].
  - exists x; split; [exact H2 | apply jsstring_eqb_eq; exact H1].
Qed.

Lemma isInCollection_false (bs : list Book) (i : jsstring) :
  SearchPage.isInCollection bs i = false <-> ~ In i (map id bs).
Proof.
  rewrite <- isInCollection_iff.
  destruct (SearchPage.isInCollection bs i); split; congruence.
Qed.

(** X2.  REMOVE_BOOK takes out every record with the id and nothing else:
    afterwards no record of [books] has the id ([isInCollection] answers
    false), the records with other ids are the same as before, and the
    length has dropped by the number of records that had the id. *)
Theorem remove_book_removes_the_id (state : BookCollectionState Book)
    (i : jsstring) :
  let state' := bookCollectionReducer state (REMOVE_BOOK i) in
  ~ In i (map id (books state'))
  /\ SearchPage.isInCollection (books state') i = false
  /\ (forall x, id x <> i -> (In x (books state') <-> In x (books state)))
  /\ length (books state') + count_id i (books state) = length (books state).
Proof.
  simpl.
  assert (N : ~ In i (map id (filter (fun book => negb (jsstring_eqb (id book) i))
                                     (books state))))
    by apply id_not_in_filtered.
  split; [exact N|]; split; [apply isInCollection_false, N|]; split.
  - intros x Hx; rewrite filter_In; split; [tauto|].
    intros H; split; [exact H|].
    apply negb_true_iff, jsstring_eqb_neq; exact Hx.
  - unfold count_id.
    pose proof (filter_length_split (fun book => jsstring_eqb (id book) i)
                  (books state)).
    lia.
Qed.

(** X3.  In every state that the reducer reaches from the initial state,
    REMOVE_BOOK with an id that [books] does not hold returns the state it
    was given. *)
Theorem remove_unknown_id_is_noop (actions : list Action) (i : jsstring) :
  let state := dispatch_all initialState actions in
  ~ In i (map id (books state)) ->
  bookCollectionReducer state (REMOVE_BOOK i) = state.
Proof.
  intros state Hno.
  assert (E : bookCollectionReducer state (REMOVE_BOOK i)
              = with_books state (books state)).
  { pose proof (remove_unknown_id_keeps_books state i Hno) as B.
    simpl in *; rewrite B; reflexivity. }
  rewrite E.
  apply with_same_books, dispatch_all_consistent, initialState_consistent.
Qed.

Lemma remove_unknown_id_is_noop_witness :
  let state := dispatch_all initialState [ADD_BOOK emma; ADD_BOOK dune] in
  ~ In (str "3") (map id (books state))
  /\ bookCollectionReducer state (REMOVE_BOOK (str "3")) = state.
Proof.
  intros state.
  assert (Hi : ~ In (str "3") (map id (books state)))
    by (simpl; intros [H | [H | []]]; discriminate H).
  split; [exact Hi|].
  exact (remove_unknown_id_is_noop [ADD_BOOK emma; ADD_BOOK dune] (str "3") Hi).
Defined.

(** X4.  UPDATE_BOOK_STATUS changes statuses and nothing else: the records
    keep their number, their order, their ids and every field but the
    status; afterwards every record with the given id has the new status,
    and the records with other ids are the records as they were. *)
Theorem update_status_changes_only_status (state : BookCollectionState Book)
    (i : jsstring) (s : BookStatus) :
  let state' := bookCollectionReducer state (UPDATE_BOOK_STATUS i s) in
  map descriptive_fields (books state') = map descriptive_fields (books state)
  /\ length (books state') = length (books state)
  /\ (forall x, In x (books state') -> id x = i -> status x = s)
  /\ (forall x, id x <> i -> (In x (books state') <-> In x (books state)))
  /\ (forall x, In x (books state) -> id x = i ->
        In (set_status x s) (books state')).
Proof.
  simpl.
  set (f := fun book => if jsstring_eqb (id book) i
                        then set_status book s else book).
  split; [|split; [|split; [|split]]].
  - rewrite map_map; apply map_ext; intros x; unfold f.
    destruct (jsstring_eqb (id x) i); reflexivity.
  - apply length_map.
  - intros x Hx E. apply in_map_iff in Hx; destruct Hx as (y & Ey & _).
    subst x; unfold f in *.
    destruct (jsstring_eqb (id y) i) eqn:Ei; [reflexivity|].
    apply jsstring_eqb_neq in Ei; contradiction.
  - intros x Hx; rewrite in_map_iff; split.
    + intros (y & Ey & Hy). unfold f in Ey.
      destruct (jsstring_eqb (id y) i) eqn:Ei.
      * apply jsstring_eqb_eq in Ei; subst x; simpl in Hx; contradiction.
      * subst y; exact Hy.
    + intros H; exists x; split; [|exact H]. unfold f.
      apply jsstring_eqb_neq in Hx; rewrite Hx; reflexivity.
  - intros x Hx E. apply in_map_iff; exists x; split; [|exact Hx].
    unfold f; apply jsstring_eqb_eq in E; rewrite E; reflexivity.
Qed.

Lemma filter_idempotent {A : Type} (f : A -> bool) (l : list A) :
  filter f (filter f l) = filter f l.
Proof.
  induction l as [|x l IH]; simpl; [reflexivity|].
  destruct (f x) eqn:E; simpl; [rewrite E, IH; reflexivity | exact IH].
Qed.

Lemma with_books_twice (state : BookCollectionState Book) (bs bs' : list Book) :
  with_books (with_books state bs) bs' = with_books state bs'.
Proof. reflexivity. Qed.

Lemma add_then_remove (state : BookCollectionState Book) (b : Book) :
  bookCollectionReducer (bookCollectionReducer state (ADD_BOOK b))
    (REMOVE_BOOK (id b))
  = bookCollectionReducer state (REMOVE_BOOK (id b)).
Proof.
  cbn [bookCollectionReducer]; cbv zeta.
  rewrite with_books_twice; f_equal.
  cbn [books with_books].
  rewrite filter_app; cbn [filter].
  rewrite jsstring_eqb_refl; cbn [negb].
  rewrite filter_idempotent, app_nil_r; reflexivity.
Qed.

(** X5.  How the collection actions compose, in every state.  Adding a
    record and then removing its id is removing the id; adding the same
    record twice is adding it once; adding a record and then updating the
    status of its id is adding the record with that status; removing an id
    twice is removing it once. *)
Theorem collection_actions_compose (state : BookCollectionState Book)
    (b : Book) (i : jsstring) (s : BookStatus) :
  let R := bookCollectionReducer in
  R (R state (ADD_BOOK b)) (REMOVE_BOOK (id b)) = R state (REMOVE_BOOK (id b))
  /\ R (R state (ADD_BOOK b)) (ADD_BOOK b) = R state (ADD_BOOK b)
  /\ R (R state (ADD_BOOK b)) (UPDATE_BOOK_STATUS (id b) s)
     = R state (ADD_BOOK (set_status b s))
  /\ R (R state (REMOVE_BOOK i)) (REMOVE_BOOK i) = R state (REMOVE_BOOK i).
Proof.
  cbn [bookCollectionReducer]; cbv zeta.
  set (keep := fun book => negb (jsstring_eqb (id book) (id b))).
  assert (Kb : keep b = false)
    by (unfold keep; rewrite jsstring_eqb_refl; reflexivity).
  split; [|split; [|split]].
  - exact (add_then_remove state b).
  - rewrite with_books_twice; f_equal.
    cbn [books with_books].
    rewrite filter_app; cbn [filter]; rewrite Kb.
    rewrite filter_idempotent, app_nil_r; reflexivity.
  - rewrite with_books_twice; f_equal.
    cbn [books with_books id set_status].
    rewrite map_app; cbn [map]; rewrite jsstring_eqb_refl.
    f_equal. fold keep.
    rewrite <- (map_id (filter keep (books state))) at 2.
    apply map_ext_in; intros x Hx.
    apply filter_In in Hx; destruct Hx as [_ Hx]; unfold keep in Hx.
    apply negb_true_iff in Hx; rewrite Hx; reflexivity.
  - rewrite with_books_twice; f_equal.
    cbn [books with_books]; apply filter_idempotent.
Qed.

Lemma filter_status_lengths (bs : list Book) :
  length bs
  = length (filter (fun b => BookStatus_eqb (status b) want_to_read) bs)
    + length (filter (fun b => BookStatus_eqb (status b) currently_reading) bs)
    + length (filter (fun b => BookStatus_eqb (status b) have_read) bs).
Proof.
  induction bs as [|b bs IH]; simpl; [reflexivity|].
  destruct (status b); simpl; lia.
Qed.

(** X6.  On the collection page the numbers on the tabs are right in every
    state that the reducer reaches: the number on each tab is the number of
    books that the tab lists, and the numbers of the three status tabs add
    up to the number of the "All" tab. *)
Theorem tab_counts_match_the_lists (actions : list Action) :
  let state := dispatch_all initialState actions in
  (forall selected,
     CollectionPage.tab_count state selected
     = length (CollectionPage.getFilteredBooks state selected))
  /\ CollectionPage.tab_count state CollectionPage.all
     = CollectionPage.tab_count state (CollectionPage.only want_to_read)
       + CollectionPage.tab_count state (CollectionPage.only currently_reading)
       + CollectionPage.tab_count state (CollectionPage.only have_read).
Proof.
  intros state.
  destruct (dispatch_all_consistent actions initialState
              initialState_consistent) as (Hc & Hw & Hh).
  fold state in Hc, Hw, Hh.
  split.
  - intros [|[]]; simpl; [reflexivity | rewrite Hw | rewrite Hc | rewrite Hh];
      reflexivity.
  - simpl; rewrite Hc, Hw, Hh; apply filter_status_lengths.
Qed.

(* ----------------------------------------------------------------- *)
(** ** Adding from a card *)

Lemma find_after_add (b : Book) (bs : list Book) :
  find (fun x => jsstring_eqb (id x) (id b))
       (filter (fun book => negb (jsstring_eqb (id book) (id b))) bs ++ [b])
  = Some b.
Proof.
  induction bs as [|x bs IH]; simpl.
  - rewrite jsstring_eqb_refl; reflexivity.
  - destruct (jsstring_eqb (id x) (id b)) eqn:E; simpl; [exact IH|].
    rewrite E; exact IH.
Qed.

(** X7.  An "Add to Collection" button of a card, pressed in any state of
    the store for any book and status: afterwards the collection holds
    exactly one record with the id of the book; it is the book with the
    chosen status and its other fields as they were, it is what the details
    page finds under that id, it is listed in the view of the chosen status,
    and no view lists another record with that id. *)
Theorem card_adds_with_the_chosen_status (state : BookCollectionState Book)
    (st : Storage) (book : Book) (s : BookStatus) :
  let state' := state_after (BookCard.add_as book s) state st in
  let added := set_status book s in
  count_id (id book) (books state') = 1
  /\ BookDetailsPage.collectionBook (books state') (Some (id book)) = Some added
  /\ SearchPage.isInCollection (books state') (id book) = true
  /\ descriptive_fields added = descriptive_fields book
  /\ In added (derived_view state' s)
  /\ (forall s' x, In x (derived_view state' s') -> id x = id book ->
        x = added /\ s' = s).
Proof.
  intros state' added.
  assert (E : state' = bookCollectionReducer state (ADD_BOOK added))
    by reflexivity.
  assert (Hid : id added = id book) by reflexivity.
  assert (Hc : derived_consistent state')
    by (rewrite E; apply with_books_consistent).
  assert (V : forall s', derived_view state' s' = getBooksByStatus state' s')
    by (intros s'; apply consistent_view, Hc).
  assert (Hin : In added (books state')).
  { rewrite E; simpl; apply in_or_app; right; left; reflexivity. }
  split; [|split; [|split; [|split; [|split]]]].
  - rewrite E; exact (count_id_after_add added (books state)).
  - rewrite E; exact (find_after_add added (books state)).
  - apply isInCollection_iff; rewrite <- Hid; apply in_map, Hin.
  - reflexivity.
  - rewrite V; apply filter_In; split; [exact Hin|].
    apply BookStatus_eqb_eq; reflexivity.
  - intros s' x Hx Ex. rewrite V in Hx.
    apply filter_In in Hx; destruct Hx as [Hx Es].
    apply BookStatus_eqb_eq in Es.
    assert (x = added).
    { rewrite E in Hx; simpl in Hx.
      apply in_app_or in Hx; destruct Hx as [Hx | [Hx | []]]; [|auto].
      apply filter_In in Hx; destruct Hx as [_ N].
      apply negb_true_iff, jsstring_eqb_neq in N.
      exfalso; apply N; rewrite Ex; reflexivity. }
    subst x; split; [reflexivity | rewrite <- Es; reflexivity].
Qed.

(** X8.  The status selector of a card, in any state of the store: after
    the change no book was added or lost, every record with the id of the
    card is listed in the view of the chosen status and in no other view,
    and if the collection held the id it still does. *)
Theorem card_status_change_moves_the_book (state : BookCollectionState Book)
    (st : Storage) (book : Book) (value : BookStatus) :
  let state' := state_after (BookCard.handleStatusChange book value) state st in
  length (books state') = length (books state)
  /\ (forall x, In x (books state') -> id x = id book ->
        In x (derived_view state' value)
        /\ forall s, s <> value -> ~ In x (derived_view state' s))
  /\ SearchPage.isInCollection (books state') (id book)
     = SearchPage.isInCollection (books state) (id book).
Proof.
  intros state'.
  assert (E : state'
              = bookCollectionReducer state
                  (UPDATE_BOOK_STATUS (id book) value)) by reflexivity.
  assert (Hc : derived_consistent state')
    by (rewrite E; apply with_books_consistent).
  assert (V : forall s, derived_view state' s = getBooksByStatus state' s)
    by (intros s; apply consistent_view, Hc).
  assert (S : forall x, In x (books state') -> id x = id book ->
                status x = value).
  { rewrite E; simpl; intros x Hx Ex.
    apply in_map_iff in Hx; destruct Hx as (y & Ey & _); subst x.
    destruct (jsstring_eqb (id y) (id book)) eqn:Ei; [reflexivity|].
    apply jsstring_eqb_neq in Ei; contradiction. }
  split; [rewrite E; simpl; apply length_map|]; split.
  - intros x Hx Ex; specialize (S x Hx Ex); split.
    + rewrite V; apply filter_In; split; [exact Hx|].
      apply BookStatus_eqb_eq; exact S.
    + intros s Hs Hin; rewrite V in Hin.
      apply filter_In in Hin; destruct Hin as [_ Es].
      apply BookStatus_eqb_eq in Es; congruence.
  - unfold SearchPage.isInCollection.
    rewrite E; simpl.
    induction (books state) as [|y bs IH]; simpl; [reflexivity|].
    rewrite IH; f_equal.
    destruct (jsstring_eqb (id y) (id book)) eqn:Ei; simpl; rewrite Ei;
      reflexivity.
Qed.

(* ----------------------------------------------------------------- *)
(** ** Searching *)

Lemma dispatch_all_keeps_collection (actions : list Action) :
  forallb (fun a => negb (assigns_books a)) actions = true ->
  forall state : BookCollectionState Book,
    books (dispatch_all state actions) = books state
    /\ currentlyReading (dispatch_all state actions) = currentlyReading state
    /\ wantToRead (dispatch_all state actions) = wantToRead state
    /\ haveRead (dispatch_all state actions) = haveRead state.
Proof.
  unfold dispatch_all.
  induction actions as [|a actions IH]; intros H state; simpl; [auto|].
  simpl in H; apply andb_true_iff in H; destruct H as [Ha H].
  destruct (IH H (bookCollectionReducer state a)) as (B & C & W & R).
  rewrite B, C, W, R.
  destruct a; simpl in Ha; try discriminate; simpl; auto.
Qed.

(** Every way [searchBooks] can go: what it returns, dispatches, requests
    and logs. *)
Lemma searchBooks_cases (getBooksApi : completion BooksApi)
    (query : jsstring) (w : World) :
  let params := {| q := query; startIndex := None; maxResults := Some 10%N |} in
  let out := searchBooks getBooksApi query w in
  let failed (e : thrown) :=
    [SET_LOADING true;
     SET_ERROR (Some (if instanceof_Error e then error_message e
                      else str "An unknown error occurred while searching"));
     SET_SEARCH_RESULTS []] in
  fst out = Normal tt
  /\ localStorage (snd out) = localStorage w
  /\ ((forallb is_js_whitespace query = true
       /\ dispatched (snd out) = dispatched w ++ [CLEAR_SEARCH]
       /\ requests (snd out) = requests w)
      \/ (forallb is_js_whitespace query = false
          /\ exists e, getBooksApi = Throw e
             /\ dispatched (snd out) = dispatched w ++ failed e
             /\ requests (snd out) = requests w ++ [GetBooksApi])
      \/ (forallb is_js_whitespace query = false
          /\ exists api e, getBooksApi = Normal api
             /\ api_searchBooks api params = Throw e
             /\ dispatched (snd out) = dispatched w ++ failed e
             /\ requests (snd out)
                = requests w ++ [GetBooksApi; SearchBooks params])
      \/ (forallb is_js_whitespace query = false
          /\ exists api response, getBooksApi = Normal api
             /\ api_searchBooks api params = Normal response
             /\ requests (snd out)
                = requests w ++ [GetBooksApi; SearchBooks params]
             /\ ((response_is_empty response = true
                  /\ dispatched (snd out)
                     = dispatched w
                       ++ [SET_LOADING true; SET_SEARCH_RESULTS [];
                           SET_ERROR (Some no_books_found)])
                 \/ (exists found, items response = Some found
                     /\ found <> []
                     /\ dispatched (snd out)
                        = dispatched w
                          ++ [SET_LOADING true;
                              SET_SEARCH_RESULTS
                                (map (fun item => mapGoogleBookToBook item None)
                                     found)])))).
Proof.
  intros params out failed; subst out.
  destruct (forallb is_js_whitespace query) eqn:Hq.
  - rewrite (searchBooks_blank getBooksApi query Hq); simpl.
    split; [reflexivity|]; split; [reflexivity|]; left; auto.
  - unfold searchBooks.
    rewrite (searchBooks_not_blank getBooksApi query Hq); simpl.
    unfold try_catch, bind, dispatch, call_getBooksApi, call_searchBooks,
      console_error; simpl.
    destruct getBooksApi as [api|e]; simpl.
    + fold params.
      destruct (api_searchBooks api params) as [response|e] eqn:Er; simpl.
      * destruct (response_is_empty response) eqn:Ee; simpl.
        -- split; [reflexivity|]; split; [reflexivity|].
           right; right; right; split; [reflexivity|].
           exists api, response.
           split; [reflexivity|]; split; [exact Er|].
           split; [repeat rewrite <- app_assoc; reflexivity|].
           left; split; [exact Ee|].
           repeat rewrite <- app_assoc; reflexivity.
        -- split; [reflexivity|]; split; [reflexivity|].
           right; right; right; split; [reflexivity|].
           exists api, response.
           split; [reflexivity|]; split; [exact Er|].
           split; [repeat rewrite <- app_assoc; reflexivity|].
           right. unfold response_is_empty in Ee.
           destruct (items response) as [[|x found]|]; try discriminate.
           exists (x :: found).
           split; [reflexivity|]; split; [discriminate|].
           repeat rewrite <- app_assoc; reflexivity.
      * split; [reflexivity|]; split; [reflexivity|].
        right; right; left; split; [reflexivity|].
        exists api, e.
        split; [reflexivity|]; split; [exact Er|].
        split; repeat rewrite <- app_assoc; reflexivity.
    + split; [reflexivity|]; split; [reflexivity|].
      right; left; split; [reflexivity|].
      exists e.
      split; [reflexivity|].
      split; repeat rewrite <- app_assoc; reflexivity.
Qed.

(** X9.  A search that finds something: when the query is not blank and the
    collaborator answers with at least one item, the store asks the
    collaborator once, with the query as it was typed (untrimmed) and a page
    size of 10, and ends with the mapped items as [searchResults], in the
    order of the answer and under the ids of the items, each with the status
    "want-to-read", with no error and with [isLoading] false. *)
Theorem found_items_become_search_results (api : BooksApi)
    (response : GoogleBooksResponse) (found : list GoogleBookItem)
    (query : jsstring) (state : BookCollectionState Book) (st : Storage) :
  forallb is_js_whitespace query = false ->
  api_searchBooks api
    {| q := query; startIndex := None; maxResults := Some 10%N |}
    = Normal response ->
  items response = Some found ->
  found <> [] ->
  let run := searchBooks (Normal api) query in
  let state' := state_after run state st in
  requests (snd (run (quiet st)))
  = [GetBooksApi;
     SearchBooks {| q := query; startIndex := None; maxResults := Some 10%N |}]
  /\ searchResults state'
     = map (fun item => mapGoogleBookToBook item None) found
  /\ map id (searchResults state') = map item_id found
  /\ Forall (fun b => status b = want_to_read) (searchResults state')
  /\ error state' = None
  /\ isLoading state' = false.
Proof.
  intros Hq Hr Hi Hne run state'.
  assert (C : exists found',
             items response = Some found' /\ found' <> []
             /\ requests (snd (run (quiet st)))
                = requests (quiet st)
                  ++ [GetBooksApi;
                      SearchBooks {| q := query; startIndex := None;
                                     maxResults := Some 10%N |}]
             /\ dispatched (snd (run (quiet st)))
                = dispatched (quiet st)
                  ++ [SET_LOADING true;
                      SET_SEARCH_RESULTS
                        (map (fun item => mapGoogleBookToBook item None)
                             found')]).
  { destruct (searchBooks_cases (Normal api) query (quiet st))
      as (_ & _ & [(Hb & _) | [(_ & e & He & _)
                   | [(_ & a & e & Ha & He & _) | C]]]).
    - congruence.
    - discriminate He.
    - inversion Ha; subst a; congruence.
    - destruct C as (_ & a & r & Ha & Hr' & Hreq & C).
      inversion Ha; subst a.
      assert (r = response) by congruence; subst r.
      destruct C as [(Hempty & _) | (found' & Hi' & Hne' & Hd)].
      + unfold response_is_empty in Hempty; rewrite Hi in Hempty.
        destruct found; [congruence | discriminate].
      + exists found'; auto. }
  destruct C as (found' & Hi' & _ & Hreq & Hd).
  assert (found' = found) by congruence; subst found'.
  assert (S : searchResults state'
              = map (fun item => mapGoogleBookToBook item None) found).
  { subst state' run; unfold state_after; rewrite Hd; reflexivity. }
  split; [exact Hreq|]; split; [exact S|]; split; [|split; [|split]].
  - rewrite S, map_map; reflexivity.
  - rewrite S; apply Forall_forall; intros b Hb.
    apply in_map_iff in Hb; destruct Hb as (item & <- & _); reflexivity.
  - subst state' run; unfold state_after; rewrite Hd; reflexivity.
  - subst state' run; unfold state_after; rewrite Hd; reflexivity.
Qed.

Lemma found_items_become_search_results_witness :
  let api := mkApi (fun _ => Normal mockBooks) in
  let state' :=
    state_after (searchBooks (Normal api) (str " clean ")) initialState
      empty_storage in
  map id (searchResults state')
  = [str "mock1"; str "mock2"; str "mock3"; str "mock4"; str "mock5"]
  /\ error state' = None
  /\ isLoading state' = false.
Proof.
  intros api state'.
  destruct (found_items_become_search_results api mockBooks mockItems
              (str " clean ") initialState empty_storage
              eq_refl eq_refl eq_refl ltac:(discriminate))
    as (_ & _ & H & _ & He & Hl).
  split; [exact H|]; split; [exact He | exact Hl].
Defined.

(** X10.  Whatever the query is and whatever the collaborator does (it may
    reject, when it is obtained or when it is asked, or answer anything),
    [searchBooks] returns without throwing, writes nothing to the storage,
    and leaves [books] and the three derived arrays of the store as they
    were. *)
Theorem search_never_throws_nor_touches_collection
    (getBooksApi : completion BooksApi) (query : jsstring) (w : World)
    (state : BookCollectionState Book) (st : Storage) :
  let state' := state_after (searchBooks getBooksApi query) state st in
  fst (searchBooks getBooksApi query w) = Normal tt
  /\ localStorage (snd (searchBooks getBooksApi query w)) = localStorage w
  /\ books state' = books state
  /\ currentlyReading state' = currentlyReading state
  /\ wantToRead state' = wantToRead state
  /\ haveRead state' = haveRead state.
Proof.
  intros state'.
  destruct (searchBooks_cases getBooksApi query w) as (Hn & Hs & _).
  split; [exact Hn|]; split; [exact Hs|].
  subst state'; unfold state_after.
  apply dispatch_all_keeps_collection.
  destruct (searchBooks_cases getBooksApi query (quiet st))
    as (_ & _ & [(_ & Hd & _) | [(_ & e & _ & Hd & _)
                 | [(_ & a & e & _ & _ & Hd & _) | C]]]).
  - rewrite Hd; reflexivity.
  - rewrite Hd; reflexivity.
  - rewrite Hd; reflexivity.
  - destruct C as (_ & a & r & _ & _ & _ & [(_ & Hd) | (found & _ & _ & Hd)]);
      rewrite Hd; reflexivity.
Qed.

(** X11.  A search for a query that is not blank never leaves the store
    loading: however the collaborator behaves, [isLoading] is false once the
    dispatched actions have gone through the reducer. *)
Theorem search_ends_not_loading (getBooksApi : completion BooksApi)
    (query : jsstring) (state : BookCollectionState Book) (st : Storage) :
  forallb is_js_whitespace query = false ->
  isLoading (state_after (searchBooks getBooksApi query) state st) = false.
Proof.
  intros Hq; unfold state_after.
  destruct (searchBooks_cases getBooksApi query (quiet st))
    as (_ & _ & [(Hb & _) | [(_ & e & _ & Hd & _)
                 | [(_ & a & e & _ & _ & Hd & _) | C]]]).
  - congruence.
  - rewrite Hd; reflexivity.
  - rewrite Hd; reflexivity.
  - destruct C as (_ & a & r & _ & _ & _ & [(_ & Hd) | (found & _ & _ & Hd)]);
      rewrite Hd; reflexivity.
Qed.

Lemma search_ends_not_loading_witness :
  forallb is_js_whitespace (str "error") = false
  /\ isLoading
       (state_after
          (searchBooks (Throw (ThrownValue JNull)) (str "error"))
          (bookCollectionReducer initialState (SET_LOADING true))
          empty_storage)
     = false.
Proof.
  split; [reflexivity|].
  exact (search_ends_not_loading (Throw (ThrownValue JNull)) (str "error")
           (bookCollectionReducer initialState (SET_LOADING true))
           empty_storage eq_refl).
Defined.

(** X12.  Submitting the search form with a blank query does nothing at
    all: [handleSearch] dispatches no action (not even CLEAR_SEARCH, which
    [searchBooks] itself would dispatch), asks no collaborator and logs
    nothing, so earlier results and an earlier error stay on the page. *)
Theorem blank_submit_does_nothing (getBooksApi : completion BooksApi)
    (query : jsstring) (w : World) :
  forallb is_js_whitespace query = true ->
  SearchPage.handleSearch getBooksApi query w = (Normal tt, w)
  /\ searchBooks getBooksApi query w <> (Normal tt, w).
Proof.
  intros Hq; unfold SearchPage.handleSearch.
  rewrite truthy_trim, Hq; simpl.
  split; [reflexivity|].
  rewrite (searchBooks_blank getBooksApi query Hq).
  unfold dispatch; intros E.
  apply (f_equal (fun out => length (dispatched (snd out)))) in E.
  simpl in E; rewrite length_app in E; simpl in E; lia.
Qed.

Lemma blank_submit_does_nothing_witness :
  forallb is_js_whitespace (str "  ") = true
  /\ SearchPage.handleSearch (Normal failing_api) (str "  ")
       (quiet empty_storage)
     = (Normal tt, quiet empty_storage).
Proof.
  split; [reflexivity|].
  exact (proj1 (blank_submit_does_nothing (Normal failing_api) (str "  ")
                  (quiet empty_storage) eq_refl)).
Defined.

(* ----------------------------------------------------------------- *)
(** ** Saving *)

Lemma saveBooks_is_persist (state : BookCollectionState Book) :
  saveBooks state = persist (map js_of_book (books state)).
Proof. reflexivity. Qed.

(** X13.  When the storage has no room for the text of the collection, the
    save effect neither throws nor writes: the storage is left as it was,
    one diagnostic is logged, and SET_ERROR with the message "Storage quota
    exceeded. Please remove some books." is the one action dispatched; once
    it has gone through the reducer the store shows that error and still
    holds the same [books] (nothing is rolled back). *)
Theorem full_storage_is_reported_not_thrown (state : BookCollectionState Book)
    (w : World) :
  storage_fits (localStorage w) STORAGE_KEY
    (JSON_stringify (JArr (map js_of_book (books state)))) = false ->
  let out := saveBooks state w in
  let message := str "Storage quota exceeded. Please remove some books." in
  let state' := dispatch_all state [SET_ERROR (Some message)] in
  fst out = Normal tt
  /\ localStorage (snd out) = localStorage w
  /\ console (snd out)
     = console w
       ++ [(str "Failed to save books to localStorage:", QuotaExceededError)]
  /\ dispatched (snd out) = dispatched w ++ [SET_ERROR (Some message)]
  /\ error state' = Some message
  /\ books state' = books state.
Proof.
  intros H out message state'; subst out.
  unfold saveBooks, try_catch, localStorage_setItem.
  rewrite H; simpl.
  repeat split.
Qed.

Lemma full_storage_is_reported_not_thrown_witness :
  let state := dispatch_all initialState [ADD_BOOK dune] in
  let w := quiet (mkStorage [] (Some 40)) in
  storage_fits (localStorage w) STORAGE_KEY
    (JSON_stringify (JArr (map js_of_book (books state)))) = false
  /\ localStorage (snd (saveBooks state w)) = localStorage w
  /\ dispatched (snd (saveBooks state w))
     = [SET_ERROR (Some (str "Storage quota exceeded. Please remove some books."))].
Proof.
  intros state w.
  assert (H : storage_fits (localStorage w) STORAGE_KEY
                (JSON_stringify (JArr (map js_of_book (books state)))) = false)
    by (vm_compute; reflexivity).
  destruct (full_storage_is_reported_not_thrown state w H)
    as (_ & Hs & _ & Hd & _).
  split; [exact H|]; split; [exact Hs | exact Hd].
Defined.

Lemma storage_get_put_other (k k' v : jsstring)
    (es : list (jsstring * jsstring)) :
  k <> k' -> storage_get k (storage_put k' v es) = storage_get k es.
Proof.
  intros Hk; unfold storage_put; simpl.
  assert (E : jsstring_eqb k' k = false)
    by (apply jsstring_eqb_neq; congruence).
  rewrite E.
  induction es as [|[k0 v0] es IH]; simpl; [reflexivity|].
  destruct (jsstring_eqb k0 k') eqn:E0; simpl.
  - apply jsstring_eqb_eq in E0; subst k0; rewrite E; exact IH.
  - destruct (jsstring_eqb k0 k); [reflexivity | exact IH].
Qed.

(** X14.  The save effect writes under its own key only: whatever the state
    and the storage, it does not throw, it asks no collaborator, and every
    other key of the storage reads as before. *)
Theorem save_touches_only_its_key (state : BookCollectionState Book)
    (w : World) (k : jsstring) :
  k <> STORAGE_KEY ->
  let out := saveBooks state w in
  fst out = Normal tt
  /\ requests (snd out) = requests w
  /\ storage_get k (entries (localStorage (snd out)))
     = storage_get k (entries (localStorage w)).
Proof.
  intros Hk out; subst out.
  unfold saveBooks, try_catch, localStorage_setItem.
  destruct (storage_fits (localStorage w) STORAGE_KEY
              (JSON_stringify (JArr (map js_of_book (books state)))));
    cbn [fst snd localStorage entries requests].
  - split; [reflexivity|]; split; [reflexivity|].
    apply storage_get_put_other, Hk.
  - unfold bind, console_error, dispatch;
      cbn [instanceof_DOMException QuotaExceededError andb];
      repeat split.
Qed.

Lemma save_touches_only_its_key_witness :
  let w := quiet (mkStorage [(str "theme", str "dark")] None) in
  let state := dispatch_all initialState [ADD_BOOK dune] in
  str "theme" <> STORAGE_KEY
  /\ storage_get (str "theme") (entries (localStorage (snd (saveBooks state w))))
     = Some (str "dark").
Proof.
  intros w state.
  assert (H : str "theme" <> STORAGE_KEY) by discriminate.
  destruct (save_touches_only_its_key state w (str "theme") H) as (_ & _ & E).
  split; [exact H | exact E].
Defined.

(* ----------------------------------------------------------------- *)
(** ** Loading *)

Lemma load_keeps_storage (w : World) :
  localStorage (snd (loadInitialState w)) = localStorage w.
Proof.
  unfold loadInitialState, loadInitialState_try, try_catch, bind,
    localStorage_getItem, lift, ret, console_error.
  destruct (storage_get STORAGE_KEY (entries (localStorage w))) as [[|c t]|];
    simpl; auto.
  destruct (JSON_parse (c :: t)) as [[| | | |bs|]|e]; simpl; auto.
  destruct (computeDerivedArrays_js bs); simpl; auto.
Qed.

(** X15.  Loading only reads: for every content of the storage,
    [loadInitialState] leaves the storage, the dispatched actions and the
    requests as they were, and logs nothing or one diagnostic. *)
Theorem load_only_reads (w : World) :
  let w' := snd (loadInitialState w) in
  localStorage w' = localStorage w
  /\ dispatched w' = dispatched w
  /\ requests w' = requests w
  /\ (console w' = console w
      \/ exists e,
           console w'
           = console w ++ [(str "Failed to load books from localStorage:", e)]).
Proof.
  unfold loadInitialState, loadInitialState_try, try_catch, bind,
    localStorage_getItem, lift, ret, console_error.
  destruct (storage_get STORAGE_KEY (entries (localStorage w))) as [[|c t]|];
    simpl; auto.
  destruct (JSON_parse (c :: t)) as [[| | | |bs|]|e]; simpl; eauto 6.
  destruct (computeDerivedArrays_js bs); simpl; eauto 6.
Qed.

Lemma filter_by_status_spec (lit : jsstring) (bs : list jsval) :
  filter_by_status lit bs
  = if existsb is_null bs then Throw TypeError
    else Normal (filter (status_is lit) bs).
Proof.
  induction bs as [|b bs IH]; [reflexivity|].
  cbn [filter_by_status existsb filter].
  rewrite IH; unfold status_is.
  destruct b; simpl; try reflexivity;
    destruct (existsb is_null bs); try reflexivity.
Qed.

Lemma existsb_is_null (bs : list jsval) :
  existsb is_null bs = true <-> In JNull bs.
Proof.
  rewrite existsb_exists; split.
  - intros (x & Hx & E); destruct x; try discriminate; exact Hx.
  - intros H; exists JNull; auto.
Qed.

(** X16.  The loader checks that the stored value is an array, not what is
    in it.  When the slot parses to an array with a [null] element, reading
    the status of that element throws inside the [try]: the loader logs the
    TypeError and starts from the initial state.  Any other array is taken
    as [books] as it stands, whatever its elements are; each derived array
    holds the elements whose [status] property is exactly its status string,
    so an element without such a status is in [books] and in no view. *)
Theorem load_takes_any_array_without_null (w : World) (text : jsstring)
    (bs : list jsval) :
  storage_get STORAGE_KEY (entries (localStorage w)) = Some text ->
  JSON_parse text = Normal (JArr bs) ->
  (In JNull bs ->
   loadInitialState w
   = (Normal initialState,
      logged (str "Failed to load books from localStorage:") TypeError w))
  /\ (~ In JNull bs ->
      loadInitialState w
      = (Normal {| books := bs;
                   searchResults := [];
                   isLoading := false;
                   error := None;
                   currentlyReading :=
                     filter (status_is (str "currently-reading")) bs;
                   wantToRead := filter (status_is (str "want-to-read")) bs;
                   haveRead := filter (status_is (str "have-read")) bs |},
         w)).
Proof.
  intros Hs Hp.
  assert (T : truthy text = true).
  { destruct text; [rewrite JSON_parse_empty in Hp; discriminate | reflexivity]. }
  unfold loadInitialState, loadInitialState_try, try_catch, bind,
    localStorage_getItem, lift, ret, console_error, logged.
  rewrite Hs, T, Hp.
  unfold computeDerivedArrays_js; rewrite !filter_by_status_spec.
  split; intros H.
  - apply existsb_is_null in H; rewrite H; reflexivity.
  - destruct (existsb is_null bs) eqn:E; [apply existsb_is_null in E; tauto|].
    reflexivity.
Qed.

Lemma load_takes_any_array_without_null_witness :
  let stray := JObj [(str "id", JStr (str "x"));
                     (str "status", JStr (str "abandoned"))] in
  let text := JSON_stringify (JArr [stray; JNum (str "7")]) in
  let loaded := fst (loadInitialState (quiet (storage_with text))) in
  JSON_parse text = Normal (JArr [stray; JNum (str "7")])
  /\ loaded
     = Normal {| books := [stray; JNum (str "7")];
                 searchResults := [];
                 isLoading := false;
                 error := None;
                 currentlyReading := [];
                 wantToRead := [];
                 haveRead := [] |}.
Proof.
  intros stray text loaded.
  assert (Hp : JSON_parse text = Normal (JArr [stray; JNum (str "7")]))
    by (vm_compute; reflexivity).
  split; [exact Hp|].
  assert (Hn : ~ In JNull [stray; JNum (str "7")])
    by (intros [H | [H | []]]; discriminate H).
  subst loaded.
  rewrite (proj2 (load_takes_any_array_without_null
                    (quiet (storage_with text)) text
                    [stray; JNum (str "7")] eq_refl Hp) Hn).
  reflexivity.
Defined.

(* ----------------------------------------------------------------- *)
(** ** The provider from mount to render *)

(** X17.  Mounting replaces what it could not use.  Whenever the loader
    comes back with an empty collection (the key is absent, or the stored
    text does not parse, or does not parse to an array the filters accept)
    and the storage has room for two characters, the effect of the first
    render writes the text of the empty array under the key: the stored text
    that could not be read is gone, and the next load reads an empty
    collection without a diagnostic. *)
Theorem mount_overwrites_what_it_could_not_read (w : World)
    (loaded : BookCollectionState jsval) (w1 : World) :
  loadInitialState w = (Normal loaded, w1) ->
  books loaded = [] ->
  storage_fits (localStorage w) STORAGE_KEY (str "[]") = true ->
  exists w',
    mount w = (Normal loaded, w')
    /\ console w' = console w1
    /\ storage_get STORAGE_KEY (entries (localStorage w')) = Some (str "[]")
    /\ loadInitialState w' = (Normal initialState, w').
Proof.
  intros Hl Hb Hfit.
  assert (Hs : localStorage w1 = localStorage w).
  { pose proof (load_keeps_storage w) as H; rewrite Hl in H; exact H. }
  unfold mount, bind; rewrite Hl.
  unfold persist, try_catch, localStorage_setItem; rewrite Hb.
  change (JSON_stringify (JArr [])) with (str "[]").
  rewrite Hs, Hfit.
  eexists; split; [reflexivity|].
  split; [reflexivity|].
  cbn [localStorage entries].
  split; [apply storage_get_put|].
  apply (load_stored_books []); cbn [localStorage entries].
  apply storage_get_put.
Qed.

Lemma mount_overwrites_what_it_could_not_read_witness :
  let w := quiet (storage_with (str "invalid json")) in
  exists w',
    mount w = (Normal initialState, w')
    /\ console w'
       = [(str "Failed to load books from localStorage:", SyntaxError)]
    /\ storage_get STORAGE_KEY (entries (localStorage w')) = Some (str "[]").
Proof.
  intros w.
  destruct (mount_overwrites_what_it_could_not_read w initialState
              (logged (str "Failed to load books from localStorage:")
                 SyntaxError w)
              eq_refl eq_refl eq_refl)
    as (w' & Hm & Hc & Hs & _).
  exists w'; split; [exact Hm|]; split; [exact Hc | exact Hs].
Defined.

Lemma existsb_false_forallb {A : Type} (f : A -> bool) (l : list A) :
  existsb f l = false -> forallb (fun a => negb (f a)) l = true.
Proof.
  induction l as [|x l IH]; simpl; [reflexivity|].
  destruct (f x); simpl; [discriminate | exact IH].
Qed.

Lemma render_keeps_in_sync (batch : list Action)
    (state : BookCollectionState Book) (st : Storage) :
  quota st = None -> in_sync state st ->
  fst (render batch state st) = dispatch_all state batch
  /\ quota (localStorage (snd (render batch state st))) = None
  /\ in_sync (dispatch_all state batch)
             (localStorage (snd (render batch state st))).
Proof.
  intros Hq Hs; unfold render.
  destruct (existsb assigns_books batch) eqn:E.
  - unfold saveBooks, try_catch, localStorage_setItem, storage_fits, quiet.
    cbn [localStorage]; rewrite Hq.
    cbn [fst snd dispatched localStorage quota entries dispatch_all fold_left].
    split; [reflexivity|]; split; [first [exact Hq | reflexivity]|].
    unfold in_sync; cbn [entries]; apply storage_get_put.
  - cbn [fst snd quiet localStorage].
    split; [reflexivity|]; split; [exact Hq|].
    unfold in_sync in *.
    destruct (dispatch_all_keeps_collection batch
                (existsb_false_forallb _ _ E) state) as (B & _).
    rewrite B; exact Hs.
Qed.

(** X18.  What is stored follows what is shown.  With a storage that sets no
    limit, starting from a state whose [books] the slot holds (as it does
    after mounting), after any number of renders, each for any batch of
    actions, the state is the one the reducer gives for all the actions in
    their order, the slot holds the text of its [books], and loading from
    that storage gives back exactly these records, with the derived arrays
    computed from them and the search fields reset. *)
Theorem stored_collection_follows_the_state
    (batches : list (list Action)) (state : BookCollectionState Book)
    (st : Storage) :
  quota st = None ->
  in_sync state st ->
  let state' := fst (renders batches state st) in
  let st' := snd (renders batches state st) in
  state' = dispatch_all state (concat batches)
  /\ in_sync state' st'
  /\ loadInitialState (quiet st')
     = (Normal (js_of_state
                  (bookCollectionReducer initialState
                     (LOAD_FROM_STORAGE (books state')))),
        quiet st').
Proof.
  intros Hq Hs.
  assert (G : fst (renders batches state st)
              = dispatch_all state (concat batches)
              /\ in_sync (fst (renders batches state st))
                         (snd (renders batches state st))).
  { revert state st Hq Hs.
    induction batches as [|batch batches IH]; intros state st Hq Hs.
    - simpl; auto.
    - cbn [renders concat].
      destruct (render_keeps_in_sync batch state st Hq Hs) as (E & Q & S).
      destruct (render batch state st) as [state1 w1]; cbn [fst snd] in *.
      subst state1.
      destruct (IH (dispatch_all state batch) (localStorage w1) Q S)
        as (E' & S').
      rewrite dispatch_all_app; auto. }
  destruct G as (E & S).
  split; [exact E|]; split; [exact S|].
  apply load_stored_books; exact S.
Qed.

Lemma stored_collection_follows_the_state_witness :
  let st := storage_with (str "[]") in
  let batches :=
    [[ADD_BOOK dune]; [SET_LOADING true];
     [ADD_BOOK emma; UPDATE_BOOK_STATUS (str "1") have_read];
     [REMOVE_BOOK (str "2")]] in
  quota st = None
  /\ in_sync initialState st
  /\ books (fst (renders batches initialState st)) = [dune_again]
  /\ in_sync (fst (renders batches initialState st))
             (snd (renders batches initialState st)).
Proof.
  intros st batches.
  assert (Hq : quota st = None) by reflexivity.
  assert (Hs : in_sync initialState st) by reflexivity.
  destruct (stored_collection_follows_the_state batches initialState st Hq Hs)
    as (E & S & _).
  split; [exact Hq|]; split; [exact Hs|]; split; [|exact S].
  rewrite E; reflexivity.
Defined.

(* ----------------------------------------------------------------- *)
(** ** The mapping adapter, on any item *)

Lemma or_else_not_empty (x : option jsstring) (fallback : jsstring) :
  fallback <> [] -> or_else x fallback <> [].
Proof.
  intros H; unfold or_else.
  destruct x as [[|c s]|]; simpl; try exact H; discriminate.
Qed.

(** X19.  Whatever the item, the record that the adapter returns never has
    an empty author, publication date, description or thumbnail: a field
    that is missing or empty in the item is replaced by its default. *)
Theorem mapped_fields_are_never_empty (item : GoogleBookItem)
    (status_arg : option BookStatus) :
  let b := mapGoogleBookToBook item status_arg in
  author b <> [] /\ publishedDate b <> [] /\ description b <> []
  /\ thumbnail b <> [].
Proof.
  simpl; repeat split; apply or_else_not_empty; discriminate.
Qed.

(** X20.  An item with all its optional fields present and not empty is
    copied as it is: id and title, the authors joined with ", ", the date,
    the description and the thumbnail of the item, and the status that was
    handed over. *)
Theorem complete_item_is_copied (i t d desc thumb : jsstring)
    (names : list jsstring) (small : option jsstring) (s : BookStatus) :
  join (str ", ") names <> [] -> d <> [] -> desc <> [] -> thumb <> [] ->
  mapGoogleBookToBook
    (mkItem i (mkVolumeInfo t (Some names) (Some d) (Some desc)
                 (Some (mkImageLinks (Some thumb) small))))
    (Some s)
  = mkBook i t (join (str ", ") names) d desc thumb s.
Proof.
  intros Hn Hd He Ht; unfold mapGoogleBookToBook; simpl.
  destruct (join (str ", ") names); [congruence|].
  destruct d; [congruence|]; destruct desc; [congruence|].
  destruct thumb; [congruence|]; reflexivity.
Qed.

Lemma complete_item_is_copied_witness :
  mapGoogleBookToBook mock4 (Some currently_reading)
  = mkBook (str "mock4") (str "The Pragmatic Programmer")
      (str "David Thomas, Andrew Hunt") (str "1999")
      (str "Your journey to mastery in software development.")
      (str "https://via.placeholder.com/128x192.png?text=Pragmatic")
      currently_reading.
Proof.
  exact (complete_item_is_copied (str "mock4") (str "The Pragmatic Programmer")
           (str "1999")
           (str "Your journey to mastery in software development.")
           (str "https://via.placeholder.com/128x192.png?text=Pragmatic")
           [str "David Thomas"; str "Andrew Hunt"] None currently_reading
           ltac:(discriminate) ltac:(discriminate) ltac:(discriminate)
           ltac:(discriminate)).
Defined.

(* ----------------------------------------------------------------- *)
(** ** The mock collaborator *)

Lemma startsWith_refl (s : jsstring) : startsWith s s = true.
Proof.
  induction s as [|c s IH]; simpl; [reflexivity|].
  rewrite N.eqb_refl; exact IH.
Qed.

Lemma includes_refl (s : jsstring) : includes s s = true.
Proof.
  destruct s as [|c s]; [reflexivity|].
  cbn [includes]; rewrite startsWith_refl; reflexivity.
Qed.

(** X21.  The mock search, for any query and whatever the case mapping of
    the host is: it never rejects; its answer has the kind "books#volumes",
    a count equal to the number of its items, and as items the mock books
    that match, in the order of the catalogue (a book matches when its
    title, or one of its authors, contains the query, case apart); the
    empty query gives all five; a query that is the title or an author of a
    mock book finds that book. *)
Theorem mock_search_answers (toLowerCase : jsstring -> jsstring)
    (params : SearchParams) :
  exists found,
    mock_searchBooks toLowerCase params
    = Normal (mkResponse (str "books#volumes") (N.of_nat (length found))
                (Some found))
    /\ (q params = [] -> found = mockItems)
    /\ (q params <> [] ->
        found = filter (mock_matches toLowerCase (q params)) mockItems)
    /\ (forall item, In item found -> In item mockItems)
    /\ (forall item, In item mockItems ->
          q params = vi_title (volumeInfo item)
          \/ (exists names, vi_authors (volumeInfo item) = Some names
                            /\ In (q params) names) ->
          In item found).
Proof.
  unfold mock_searchBooks.
  destruct (q params) as [|c query] eqn:Eq; cbn [truthy].
  - exists mockItems.
    split; [reflexivity|]; split; [reflexivity|]; split; [congruence|].
    split; [auto|]; auto.
  - exists (filter (mock_matches toLowerCase (c :: query)) mockItems).
    split; [reflexivity|]; split; [discriminate|]; split; [reflexivity|].
    split.
    + intros item H; apply filter_In in H; tauto.
    + intros item Hin H; apply filter_In; split; [exact Hin|].
      unfold mock_matches; apply orb_true_iff.
      destruct H as [H | (names & Hn & Hq)].
      * left; rewrite H; apply includes_refl.
      * right; rewrite Hn; apply existsb_exists.
        exists (c :: query); split; [exact Hq | apply includes_refl].
Qed.

Lemma mock_getBookById_unknown (bookId : jsstring) :
  ~ In bookId (map item_id mockItems) ->
  mock_getBookById bookId
  = Throw (ErrorObject (str "Error")
             (str "Book with ID " ++ bookId ++ str " not found")).
Proof.
  intros H; unfold mock_getBookById.
  destruct (find (fun item => jsstring_eqb (item_id item) bookId) mockItems)
    as [item|] eqn:E; [|reflexivity].
  apply find_some in E; destruct E as [Hin Hid].
  apply jsstring_eqb_eq in Hid.
  exfalso; apply H; rewrite <- Hid; apply in_map, Hin.
Qed.

(** X22.  The mock lookup by id: for one of the five mock ids it resolves
    to the mock book with that id; for any other id it rejects with an
    Error whose message is "Book with ID <id> not found". *)
Theorem mock_lookup_by_id (bookId : jsstring) :
  (In bookId (map item_id mockItems) ->
   exists item,
     mock_getBookById bookId = Normal item
     /\ item_id item = bookId /\ In item mockItems)
  /\ (~ In bookId (map item_id mockItems) ->
      mock_getBookById bookId
      = Throw (ErrorObject (str "Error")
                 (str "Book with ID " ++ bookId ++ str " not found"))).
Proof.
  split; [|apply mock_getBookById_unknown].
  intros H; unfold mock_getBookById.
  destruct (find (fun item => jsstring_eqb (item_id item) bookId) mockItems)
    as [item|] eqn:E.
  - apply find_some in E; destruct E as [Hin Hid].
    apply jsstring_eqb_eq in Hid; exists item; auto.
  - apply in_map_iff in H; destruct H as (item & Hid & Hin).
    pose proof (find_none _ _ E item Hin) as N; cbv beta in N.
    rewrite Hid, jsstring_eqb_refl in N; discriminate.
Qed.

(** X23.  [getBooksApi] always resolves, whatever the environment: without
    an API key (missing or empty) it resolves to the mock collaborator and
    warns once; with a key it resolves to the real collaborator when the
    import succeeds, and to the mock with one warning when the import
    fails. *)
Theorem getBooksApi_always_resolves {Api : Type} (apiKey : option jsstring)
    (imported : completion Api) (mock : Api) :
  exists api warnings,
    getBooksApi apiKey imported mock = (Normal api, warnings)
    /\ (apiKey = None \/ apiKey = Some [] ->
        api = mock /\ length warnings = 1)
    /\ (forall key real,
          apiKey = Some key -> key <> [] -> imported = Normal real ->
          api = real /\ warnings = [])
    /\ (forall key e,
          apiKey = Some key -> key <> [] -> imported = Throw e ->
          api = mock /\ length warnings = 1).
Proof.
  unfold getBooksApi.
  destruct apiKey as [[|c key]|].
  - eexists; eexists; split; [reflexivity|].
    split; [auto|]; split; intros ? ? E; inversion E; subst; congruence.
  - destruct imported as [real|e].
    + eexists; eexists; split; [reflexivity|].
      split; [intros [E | E]; discriminate E|].
      split; intros ? ? _ _ E; inversion E; subst; auto.
    + eexists; eexists; split; [reflexivity|].
      split; [intros [E | E]; discriminate E|].
      split; intros ? ? _ _ E; inversion E; subst; auto.
  - eexists; eexists; split; [reflexivity|].
    split; [auto|]; split; intros ? ? E; discriminate E.
Qed.

(* ----------------------------------------------------------------- *)
(** ** The details page *)

Lemma collectionBook_some (bs : list Book) (i : jsstring) (b : Book) :
  BookDetailsPage.collectionBook bs (Some i) = Some b ->
  In b bs /\ id b = i.
Proof.
  intros H; apply find_some in H; destruct H as [Hin E].
  apply jsstring_eqb_eq in E; auto.
Qed.

Lemma details_isInCollection (bs : list Book) (i : jsstring) :
  BookDetailsPage.isInCollection bs (Some i) = SearchPage.isInCollection bs i.
Proof.
  unfold BookDetailsPage.isInCollection, BookDetailsPage.collectionBook,
    SearchPage.isInCollection.
  induction bs as [|x bs IH]; simpl; [reflexivity|].
  destruct (jsstring_eqb (id x) i); simpl; [reflexivity | exact IH].
Qed.

(** X24.  The details page, for a route id that is not empty.  A book of the
    collection is shown from the collection (the first record with the id)
    and the collaborator is not asked.  Otherwise the collaborator is asked:
    its item is shown through the mapping adapter with the default status;
    if obtaining the collaborator or the lookup rejects, no book is shown
    and the error is the message of the rejection (or "Failed to load book
    details" when it is not an Error), and it stays.  In every case the page
    ends not loading, and the status chosen in the selector is untouched. *)
Theorem details_page_fetch (books : list Book) (i : jsstring)
    (getBooksApi : completion BookDetailsPage.DetailsApi)
    (l : BookDetailsPage.Local) :
  i <> [] ->
  let found := BookDetailsPage.collectionBook books (Some i) in
  let out := BookDetailsPage.fetchBookDetails (Some i) found getBooksApi l in
  BookDetailsPage.isLoading (fst out) = false
  /\ BookDetailsPage.selectedStatus (fst out) = BookDetailsPage.selectedStatus l
  /\ (forall b, found = Some b ->
        In b books /\ id b = i
        /\ BookDetailsPage.book (fst out) = Some b
        /\ BookDetailsPage.error (fst out) = None
        /\ snd out = [])
  /\ (forall api item,
        found = None -> getBooksApi = Normal api ->
        BookDetailsPage.api_getBookById api i = Normal item ->
        BookDetailsPage.book (fst out) = Some (mapGoogleBookToBook item None)
        /\ BookDetailsPage.error (fst out) = None
        /\ snd out = [BookDetailsPage.GetBooksApi; BookDetailsPage.GetBookById i])
  /\ (forall e,
        found = None ->
        getBooksApi = Throw e
        \/ (exists api, getBooksApi = Normal api
                        /\ BookDetailsPage.api_getBookById api i = Throw e) ->
        BookDetailsPage.book (fst out) = None
        /\ BookDetailsPage.error (fst out)
           = Some (if instanceof_Error e then error_message e
                   else str "Failed to load book details")).
Proof.
  intros Hi found out; subst out.
  unfold BookDetailsPage.fetchBookDetails.
  destruct i as [|c i]; [congruence|]; cbn [truthy negb].
  destruct found as [b|] eqn:Ef.
  - split; [reflexivity|]; split; [reflexivity|]; split; [|split].
    + intros b' E; inversion E; subst b'.
      destruct (collectionBook_some books (c :: i) b Ef); auto.
    + intros ? ? E; discriminate E.
    + intros ? E; discriminate E.
  - destruct getBooksApi as [api|e0].
    + destruct (BookDetailsPage.api_getBookById api (c :: i)) as [item|e1] eqn:Ea.
      * split; [reflexivity|]; split; [reflexivity|]; split; [|split].
        -- intros ? E; discriminate E.
        -- intros api' item' _ E1 E2; inversion E1; subst api'.
           rewrite Ea in E2; inversion E2; subst item'; auto.
        -- intros e _ [E | (api' & E1 & E2)]; [discriminate E|].
           inversion E1; subst api'; rewrite Ea in E2; discriminate E2.
      * split; [reflexivity|]; split; [reflexivity|]; split; [|split].
        -- intros ? E; discriminate E.
        -- intros api' item' _ E1 E2; inversion E1; subst api'.
           rewrite Ea in E2; discriminate E2.
        -- intros e _ [E | (api' & E1 & E2)]; [discriminate E|].
           inversion E1; subst api'; rewrite Ea in E2; inversion E2; subst e.
           auto.
    + split; [reflexivity|]; split; [reflexivity|]; split; [|split].
      * intros ? E; discriminate E.
      * intros ? ? _ E; discriminate E.
      * intros e _ [E | (api' & E1 & _)]; [|discriminate E1].
        inversion E; subst e; auto.
Qed.

Lemma details_page_fetch_witness :
  let out :=
    BookDetailsPage.fetchBookDetails (Some (str "mock4"))
      (BookDetailsPage.collectionBook [dune; emma] (Some (str "mock4")))
      (Normal mockDetailsApi) BookDetailsPage.initialLocal in
  str "mock4" <> []
  /\ BookDetailsPage.book (fst out) = Some (mapGoogleBookToBook mock4 None)
  /\ BookDetailsPage.error (fst out) = None
  /\ BookDetailsPage.isLoading (fst out) = false.
Proof.
  intros out.
  assert (H : str "mock4" <> []) by discriminate.
  destruct (details_page_fetch [dune; emma] (str "mock4")
              (Normal mockDetailsApi) BookDetailsPage.initialLocal H)
    as (Hl & _ & _ & Hok & _).
  destruct (Hok mockDetailsApi mock4 eq_refl eq_refl eq_refl) as (Hb & He & _).
  split; [exact H|]; split; [exact Hb|]; split; [exact He | exact Hl].
Defined.

(** X25.  The details page against the mock collaborator, for an id that
    neither the collection nor the mock catalogue knows: both requests are
    made, no book is shown, loading is over, and the error on the page is
    "Book with ID <id> not found". *)
Theorem unknown_id_shows_not_found (books : list Book) (i : jsstring)
    (l : BookDetailsPage.Local) :
  i <> [] ->
  ~ In i (map id books) ->
  ~ In i (map item_id mockItems) ->
  let out :=
    BookDetailsPage.fetchBookDetails (Some i)
      (BookDetailsPage.collectionBook books (Some i))
      (Normal mockDetailsApi) l in
  BookDetailsPage.book (fst out) = None
  /\ BookDetailsPage.error (fst out)
     = Some (str "Book with ID " ++ i ++ str " not found")
  /\ BookDetailsPage.isLoading (fst out) = false
  /\ snd out = [BookDetailsPage.GetBooksApi; BookDetailsPage.GetBookById i].
Proof.
  intros Hi Hb Hm out; subst out.
  assert (F : BookDetailsPage.collectionBook books (Some i) = None).
  { destruct (BookDetailsPage.collectionBook books (Some i)) as [b|] eqn:E;
      [|reflexivity].
    apply collectionBook_some in E; destruct E as [Hin E].
    exfalso; apply Hb; rewrite <- E; apply in_map, Hin. }
  rewrite F; unfold BookDetailsPage.fetchBookDetails.
  destruct i as [|c i]; [congruence|]; cbn [truthy negb].
  cbn [mockDetailsApi BookDetailsPage.api_getBookById].
  rewrite (mock_getBookById_unknown (c :: i) Hm).
  repeat split.
Qed.

Lemma unknown_id_shows_not_found_witness :
  let out :=
    BookDetailsPage.fetchBookDetails (Some (str "invalid-id"))
      (BookDetailsPage.collectionBook [dune] (Some (str "invalid-id")))
      (Normal mockDetailsApi) BookDetailsPage.initialLocal in
  BookDetailsPage.error (fst out)
  = Some (str "Book with ID invalid-id not found").
Proof.
  intros out.
  assert (H1 : str "invalid-id" <> []) by discriminate.
  assert (H2 : ~ In (str "invalid-id") (map id [dune]))
    by (intros [E | []]; discriminate E).
  assert (H3 : ~ In (str "invalid-id") (map item_id mockItems)).
  { intros H; repeat (destruct H as [H | H]; [discriminate H|]); exact H. }
  exact (proj1 (proj2 (unknown_id_shows_not_found [dune] (str "invalid-id")
                         BookDetailsPage.initialLocal H1 H2 H3))).
Defined.

(** X26.  The toggle button of the details page, when the page shows the
    book of its route: pressing it flips whether the collection holds the
    id.  Pressed for a book that is not in the collection, it adds the book
    with the status chosen in the selector, which is then what the page
    finds in the collection; pressed once more, it leaves [books] exactly as
    it was before the first press. *)
Theorem details_toggle_flips_membership (state : BookCollectionState Book)
    (st : Storage) (l : BookDetailsPage.Local) (b : Book) :
  BookDetailsPage.book l = Some b ->
  let route := Some (id b) in
  let press (s : BookCollectionState Book) :=
    state_after (BookDetailsPage.handleCollectionToggle (books s) route l)
      s st in
  BookDetailsPage.isInCollection (books (press state)) route
  = negb (BookDetailsPage.isInCollection (books state) route)
  /\ (BookDetailsPage.isInCollection (books state) route = false ->
      BookDetailsPage.collectionBook (books (press state)) route
      = Some (set_status b (BookDetailsPage.selectedStatus l))
      /\ books (press (press state)) = books state).
Proof.
  intros Hb route press.
  assert (P : forall s,
            press s
            = if BookDetailsPage.isInCollection (books s) route
              then bookCollectionReducer s (REMOVE_BOOK (id b))
              else bookCollectionReducer s
                     (ADD_BOOK (set_status b (BookDetailsPage.selectedStatus l)))).
  { intros s; unfold press, state_after,
      BookDetailsPage.handleCollectionToggle.
    rewrite Hb.
    destruct (BookDetailsPage.isInCollection (books s) route); reflexivity. }
  set (added := set_status b (BookDetailsPage.selectedStatus l)).
  assert (A : forall s,
            BookDetailsPage.isInCollection
              (books (bookCollectionReducer s (ADD_BOOK added))) route = true).
  { intros s; unfold route; rewrite details_isInCollection.
    apply isInCollection_iff; simpl.
    rewrite map_app; apply in_or_app; right; left; reflexivity. }
  assert (R : forall s,
            BookDetailsPage.isInCollection
              (books (bookCollectionReducer s (REMOVE_BOOK (id b)))) route
            = false).
  { intros s; unfold route; rewrite details_isInCollection.
    apply isInCollection_false; simpl; apply id_not_in_filtered. }
  split.
  - rewrite P.
    destruct (BookDetailsPage.isInCollection (books state) route);
      [apply R | apply A].
  - intros Hout; rewrite (P state), Hout.
    split; [exact (find_after_add added (books state))|].
    rewrite P, A; cbv iota.
    pose proof (add_then_remove state added) as E.
    change (id added) with (id b) in E; unfold added in E; rewrite E.
    apply remove_unknown_id_keeps_books.
    unfold route in Hout; rewrite details_isInCollection in Hout.
    apply isInCollection_false; exact Hout.
Qed.

Lemma details_toggle_flips_membership_witness :
  let state := dispatch_all initialState [ADD_BOOK emma] in
  let l := BookDetailsPage.setBook (Some dune) BookDetailsPage.initialLocal in
  let press (s : BookCollectionState Book) :=
    state_after
      (BookDetailsPage.handleCollectionToggle (books s) (Some (id dune)) l)
      s empty_storage in
  books (press state) = [emma; dune]
  /\ books (press (press state)) = [emma].
Proof.
  intros state l press.
  destruct (details_toggle_flips_membership state empty_storage l dune eq_refl)
    as (_ & H).
  destruct (H eq_refl) as (_ & E).
  split; [reflexivity | exact E].
Defined.

(* ----------------------------------------------------------------- *)
(** ** The real collaborator *)

(** X27.  Without an API key in the environment (missing or empty) the
    real service refuses at once: [searchBooks] and [getBookById] reject
    with the Error "Google Books API key is not configured", fetch nothing
    and log nothing, whatever they are asked. *)
Theorem service_refuses_without_key (API_KEY : option jsstring)
    (number_toString : N -> jsstring)
    (url_toString : jsstring -> list (jsstring * jsstring) -> jsstring)
    (fetch_volumes : jsstring -> completion (FetchResponse GoogleBooksResponse))
    (fetch_volume : jsstring -> completion (FetchResponse GoogleBookItem))
    (params : SearchParams) (bookId : jsstring) :
  API_KEY = None \/ API_KEY = Some [] ->
  googleBooksApi.searchBooks API_KEY number_toString url_toString
    fetch_volumes params
  = (Throw (ErrorObject (str "Error")
              (str "Google Books API key is not configured")),
     mkTrace [] [])
  /\ googleBooksApi.getBookById API_KEY number_toString fetch_volume bookId
     = (Throw (ErrorObject (str "Error")
                 (str "Google Books API key is not configured")),
        mkTrace [] []).
Proof.
  intros [-> | ->]; split; reflexivity.
Qed.

Lemma service_refuses_without_key_witness :
  fst (googleBooksApi.searchBooks None (fun _ => str "10")
         (fun base _ => base)
         (fun _ => Normal (mkFetchResponse true 200%N (Normal mockBooks)))
         {| q := str "react"; startIndex := None; maxResults := Some 10%N |})
  = Throw (ErrorObject (str "Error")
             (str "Google Books API key is not configured")).
Proof.
  exact (f_equal fst
           (proj1 (service_refuses_without_key None (fun _ => str "10")
                     (fun base _ => base)
                     (fun _ => Normal (mkFetchResponse true 200%N
                                         (Normal mockBooks)))
                     (fun _ => Throw not_configured)
                     {| q := str "react"; startIndex := None;
                        maxResults := Some 10%N |}
                     (str "x") (or_introl eq_refl)))).
Defined.

Lemma fetch_json_cases {T : Type} (number_toString : N -> jsstring)
    (fetch : jsstring -> completion (FetchResponse T)) (url label : jsstring) :
  let out := googleBooksApi.fetch_json number_toString fetch url label in
  fetched (snd out) = [url]
  /\ (forall data, fst out = Normal data ->
        service_log (snd out) = []
        /\ exists response,
             fetch url = Normal response /\ ok response = true
             /\ json response = Normal data)
  /\ (forall e, fst out = Throw e ->
        service_log (snd out) = [(label, e)]
        /\ (fetch url = Throw e
            \/ exists response,
                 fetch url = Normal response
                 /\ ((ok response = false
                      /\ e = ErrorObject (str "Error")
                               (str "API request failed with status "
                                ++ number_toString (http_status response)))
                     \/ (ok response = true /\ json response = Throw e)))).
Proof.
  intros out; subst out; unfold googleBooksApi.fetch_json.
  destruct (fetch url) as [response|e0] eqn:Ef.
  - destruct (ok response) eqn:Eo; cbn [negb].
    + destruct (json response) as [data|e1] eqn:Ej; cbn [fst snd fetched service_log].
      * split; [reflexivity|]; split.
        -- intros d E; inversion E; subst d.
           split; [reflexivity|]; exists response; auto.
        -- intros e E; discriminate E.
      * split; [reflexivity|]; split.
        -- intros d E; discriminate E.
        -- intros e E; inversion E; subst e.
           split; [reflexivity|]; right; exists response; auto.
    + cbn [fst snd fetched service_log].
      split; [reflexivity|]; split.
      * intros d E; discriminate E.
      * intros e E; inversion E; subst e.
        split; [reflexivity|]; right; exists response; auto.
  - cbn [fst snd fetched service_log].
    split; [reflexivity|]; split.
    + intros d E; discriminate E.
    + intros e E; inversion E; subst e; auto.
Qed.

(** X28.  With an API key, a search of the real service fetches exactly one
    URL: the base URL with the parameters q, maxResults, startIndex and key
    appended in this order, maxResults and startIndex being 10 and 0 when
    the caller leaves them out.  It resolves only to the body of a response
    that is [ok], and then logs nothing; when the fetch rejects, when the
    response is not [ok] (the Error "API request failed with status <n>")
    or when reading the body rejects, that error is logged once under
    "Error fetching books:" and is the rejection of the search. *)
Theorem service_search_fetches_once (key : jsstring)
    (number_toString : N -> jsstring)
    (url_toString : jsstring -> list (jsstring * jsstring) -> jsstring)
    (fetch : jsstring -> completion (FetchResponse GoogleBooksResponse))
    (params : SearchParams) :
  key <> [] ->
  let url :=
    url_toString BASE_URL
      [ (str "q", q params);
        (str "maxResults",
         number_toString (match maxResults params with
                          | Some n => n | None => 10%N end));
        (str "startIndex",
         number_toString (match startIndex params with
                          | Some n => n | None => 0%N end));
        (str "key", key) ] in
  let out :=
    googleBooksApi.searchBooks (Some key) number_toString url_toString fetch
      params in
  fetched (snd out) = [url]
  /\ (forall data, fst out = Normal data ->
        service_log (snd out) = []
        /\ exists response,
             fetch url = Normal response /\ ok response = true
             /\ json response = Normal data)
  /\ (forall e, fst out = Throw e ->
        service_log (snd out) = [(str "Error fetching books:", e)]
        /\ (fetch url = Throw e
            \/ exists response,
                 fetch url = Normal response
                 /\ ((ok response = false
                      /\ e = ErrorObject (str "Error")
                               (str "API request failed with status "
                                ++ number_toString (http_status response)))
                     \/ (ok response = true /\ json response = Throw e)))).
Proof.
  intros Hk url out; subst out.
  unfold googleBooksApi.searchBooks.
  destruct key as [|c key]; [congruence|].
  cbn [googleBooksApi.key_is_missing googleBooksApi.key_text].
  apply fetch_json_cases.
Qed.

Lemma service_search_fetches_once_witness :
  let number_toString (n : N) := if N.eqb n 0 then str "0" else str "10" in
  let url_toString (base : jsstring) (ps : list (jsstring * jsstring)) :=
    base ++ str "?"
    ++ join (str "&") (map (fun p => fst p ++ str "=" ++ snd p) ps) in
  let fetch (_ : jsstring) :=
    Normal (mkFetchResponse true 200%N (Normal mockBooks)) in
  let out :=
    googleBooksApi.searchBooks (Some (str "k")) number_toString url_toString
      fetch {| q := str "react"; startIndex := None; maxResults := None |} in
  fetched (snd out)
  = [str "https://www.googleapis.com/books/v1/volumes?q=react&maxResults=10&startIndex=0&key=k"]
  /\ fst out = Normal mockBooks.
Proof.
  intros number_toString url_toString fetch out.
  destruct (service_search_fetches_once (str "k") number_toString url_toString
              fetch {| q := str "react"; startIndex := None;
                       maxResults := None |} ltac:(discriminate))
    as (Hf & _).
  split; [exact Hf | reflexivity].
Defined.

(** X29.  With an API key, a lookup of the real service fetches exactly one
    URL, the base URL followed by "/", the id as it was given, "?key=" and
    the key.  It resolves only to the body of a response that is [ok], and
    then logs nothing; any failure on the way (a rejected fetch, a response
    that is not [ok], a body that cannot be read) is logged once under
    "Error fetching book details:" and is the rejection of the lookup. *)
Theorem service_lookup_fetches_once (key : jsstring)
    (number_toString : N -> jsstring)
    (fetch : jsstring -> completion (FetchResponse GoogleBookItem))
    (bookId : jsstring) :
  key <> [] ->
  let url := BASE_URL ++ str "/" ++ bookId ++ str "?key=" ++ key in
  let out :=
    googleBooksApi.getBookById (Some key) number_toString fetch bookId in
  fetched (snd out) = [url]
  /\ (forall data, fst out = Normal data ->
        service_log (snd out) = []
        /\ exists response,
             fetch url = Normal response /\ ok response = true
             /\ json response = Normal data)
  /\ (forall e, fst out = Throw e ->
        service_log (snd out) = [(str "Error fetching book details:", e)]
        /\ (fetch url = Throw e
            \/ exists response,
                 fetch url = Normal response
                 /\ ((ok response = false
                      /\ e = ErrorObject (str "Error")
                               (str "API request failed with status "
                                ++ number_toString (http_status response)))
                     \/ (ok response = true /\ json response = Throw e)))).
Proof.
  intros Hk url out; subst out.
  unfold googleBooksApi.getBookById.
  destruct key as [|c key]; [congruence|].
  cbn [googleBooksApi.key_is_missing googleBooksApi.key_text].
  apply fetch_json_cases.
Qed.

Lemma service_lookup_fetches_once_witness :
  let out :=
    googleBooksApi.getBookById (Some (str "k")) (fun _ => str "404")
      (fun _ => Normal (mkFetchResponse false 404%N (Normal mock1)))
      (str "a b") in
  fetched (snd out)
  = [str "https://www.googleapis.com/books/v1/volumes/a b?key=k"]
  /\ fst out
     = Throw (ErrorObject (str "Error")
                (str "API request failed with status 404")).
Proof.
  intros out.
  destruct (service_lookup_fetches_once (str "k") (fun _ => str "404")
              (fun _ => Normal (mkFetchResponse false 404%N (Normal mock1)))
              (str "a b") ltac:(discriminate))
    as (Hf & _).
  split; [exact Hf | reflexivity].
Defined.
